(** * xler8r-lite: the domain computations of the [X8Website] construct

    A shallow embedding of [lib/x8-website.ts].  The construct computes, from
    its properties, the site domain, the certificate domains, the distribution
    domains and a logical-name fragment for its resources, and hands them to
    the CDK constructs it instantiates.

    JavaScript strings are modelled as [string] (sequences of 8-bit
    characters): the functions below only look at ASCII characters, and a
    domain name is made of ASCII letters, digits, hyphens and dots.  Optional
    properties ([waSubDomain?: string]) are modelled with [option]. *)

From Stdlib Require Import Bool Arith List ZArith Lia Ascii String.
Import ListNotations.

Local Open Scope string_scope.
Local Open Scope bool_scope.

(** ** JavaScript string primitives used by the construct *)

Module Js.

(** Truthiness of an optional string property: [undefined] and the empty
    string are falsy, every other string is truthy. *)
Definition truthy (o : option string) : bool :=
  match o with
  | None => false
  | Some s => negb (String.eqb s "")
  end.

(** [a.concat(b)] on arrays. *)
Definition concat {A : Type} (a b : list A) : list A := List.app a b.

(** [s.split(sep)] for a separator of one character. *)
Fixpoint split (sep : ascii) (s : string) : list string :=
  match s with
  | EmptyString => [EmptyString]
  | String c s' =>
      if Ascii.eqb c sep then EmptyString :: split sep s'
      else match split sep s' with
           | [] => [String c EmptyString]
           | p :: ps => String c p :: ps
           end
  end.

(** [l.join(sep)]. *)
Fixpoint join (sep : string) (l : list string) : string :=
  match l with
  | [] => ""
  | [p] => p
  | p :: ps => p ++ sep ++ join sep ps
  end.

(** The characters of [s] from index [n] on. *)
Fixpoint drop (n : nat) (s : string) : string :=
  match n, s with
  | O, _ => s
  | S _, EmptyString => EmptyString
  | S n', String _ s' => drop n' s'
  end.

(** [s.startsWith(pat)]. *)
Fixpoint startsWith (pat s : string) : bool :=
  match pat, s with
  | EmptyString, _ => true
  | String _ _, EmptyString => false
  | String a pat', String b s' => Ascii.eqb a b && startsWith pat' s'
  end.

(** [s.endsWith(suffix)]. *)
Definition endsWith (suffix s : string) : bool :=
  String.eqb (drop (String.length s - String.length suffix) s) suffix.

(** [s.replace(pat, repl)] with a string pattern and a replacement that
    holds no [$]: only the first occurrence of [pat] is replaced. *)
Fixpoint replace (pat repl s : string) : string :=
  if startsWith pat s then repl ++ drop (String.length pat) s
  else match s with
       | EmptyString => EmptyString
       | String c s' => String c (replace pat repl s')
       end.

(** [s.lastIndexOf(pat)], where [s] starts at index [i] of the whole
    string: the greatest index at which [pat] occurs, [-1] when there is
    none. *)
Fixpoint lastIndexOf_from (pat s : string) (i : Z) : Z :=
  match s with
  | EmptyString => if startsWith pat EmptyString then i else (-1)%Z
  | String _ s' =>
      let r := lastIndexOf_from pat s' (i + 1)%Z in
      if (0 <=? r)%Z then r
      else if startsWith pat s then i else (-1)%Z
  end.

Definition lastIndexOf (pat s : string) : Z := lastIndexOf_from pat s 0%Z.

(** [s.slice(b, e)]: a negative index counts from the end, and both are
    clamped to the string. *)
Definition slice (s : string) (b e : Z) : string :=
  let len := Z.of_nat (String.length s) in
  let from := if (b <? 0)%Z then Z.max (len + b) 0 else Z.min b len in
  let to := if (e <? 0)%Z then Z.max (len + e) 0 else Z.min e len in
  String.substring (Z.to_nat from) (Z.to_nat (Z.max (to - from) 0)) s.

End Js.

(** ** Predicates on the characters of a string *)

Fixpoint forallChars (P : ascii -> bool) (s : string) : bool :=
  match s with
  | EmptyString => true
  | String c s' => P c && forallChars P s'
  end.

Fixpoint countChar (c : ascii) (s : string) : nat :=
  match s with
  | EmptyString => 0
  | String a s' => (if Ascii.eqb a c then 1 else 0) + countChar c s'
  end.

Definition notHyphen (c : ascii) : bool := negb (Ascii.eqb c "-").

(** [s] holds no hyphen. *)
Definition hyphenFree (s : string) : bool := forallChars notHyphen s.

(** ** The properties of the construct *)

(** The fields of [X8WebSiteProps] that the domain computations and the
    resource descriptions read.  An origin access identity given by the
    caller is identified by a name; [waBucketProps] and
    [waCloudFrontDistributionDefaultBehavior] are handed over unchanged to the
    bucket and to the distribution and are left out. *)
Record X8WebSiteProps : Type := mkProps {
  waDomainName : string;
  waSubDomain : option string;
  waPathToContent : option string;
  waAdditionalDomainNames : option (list string);
  waDefaultRootObject : option string;
  waErrorResponsePagePath : option string;
  waBucketPolicyActions : option (list string);
  waOriginAccessIdentity : option string;
  waEnableCloudFrontLogging : option bool
}.

(** [o ?? d]. *)
Definition orDefault {A : Type} (o : option A) (d : A) : A :=
  match o with
  | Some a => a
  | None => d
  end.

(** ** Domain computations *)

Definition wwwSubDomain : string := "www".

(** [props.waSubDomain != wwwSubDomain]: an absent property is [undefined],
    which differs from every string. *)
Definition differs (o : option string) (s : string) : bool :=
  match o with
  | Some x => negb (String.eqb x s)
  | None => true
  end.

(** [${o}] inside a template literal. *)
Definition interpolate (o : option string) : string :=
  match o with
  | Some x => x
  | None => "undefined"
  end.

Definition getSiteDomain (props : X8WebSiteProps) : string :=
  if Js.truthy (waSubDomain props) && differs (waSubDomain props) wwwSubDomain
  then wwwSubDomain ++ "." ++ interpolate (waSubDomain props) ++ "."
         ++ waDomainName props
  else wwwSubDomain ++ "." ++ waDomainName props.

Definition getCertificateDomains (props : X8WebSiteProps) : list string :=
  let certificateDomains : list string := [] in
  let certificateDomains :=
    if Js.truthy (waSubDomain props) && differs (waSubDomain props) wwwSubDomain
    then Js.concat certificateDomains
           [interpolate (waSubDomain props) ++ "." ++ waDomainName props]
    else Js.concat certificateDomains [waDomainName props] in
  let certificateDomains :=
    match waAdditionalDomainNames props with
    | Some additional => Js.concat certificateDomains additional
    | None => certificateDomains
    end in
  certificateDomains.

Definition getDistributionDomains (props : X8WebSiteProps) : list string :=
  Js.concat (getCertificateDomains props) [getSiteDomain props].

(** The entries of [waAdditionalDomainNames], none when the property is
    absent. *)
Definition additionalDomains (props : X8WebSiteProps) : list string :=
  orDefault (waAdditionalDomainNames props) [].

(** ** The [pascalCase] function of the package pascal-case

    [pascalCase] is imported from the package pascal-case, whose code (and
    that of the package no-case it calls) is not part of the repository.
    The spec describes it as the word-capitalized form of a part (capitalize
    the first letter of each word, strip separators); what this leaves open
    follows the package.  Only ASCII letters count as letters. *)

Module PascalCase.

Local Open Scope nat_scope.

Definition NUL : ascii := Ascii.zero.

Definition code (c : ascii) : nat := nat_of_ascii c.

Definition isUpper (c : ascii) : bool := (65 <=? code c) && (code c <=? 90).
Definition isLower (c : ascii) : bool := (97 <=? code c) && (code c <=? 122).
Definition isDigit (c : ascii) : bool := (48 <=? code c) && (code c <=? 57).
Definition isAlnum (c : ascii) : bool := isUpper c || isLower c || isDigit c.

Definition toUpper (c : ascii) : ascii :=
  if isLower c then ascii_of_nat (code c - 32) else c.
Definition toLower (c : ascii) : ascii :=
  if isUpper c then ascii_of_nat (code c + 32) else c.

Fixpoint mapChars (f : ascii -> ascii) (s : string) : string :=
  match s with
  | EmptyString => EmptyString
  | String c s' => String (f c) (mapChars f s')
  end.

Definition toLowerCase (s : string) : string := mapChars toLower s.

(** [input.replace(/([a-z0-9])([A-Z])/g, "$1\0$2")]: a NUL goes between a
    lower-case letter or digit and the upper-case letter after it.  The
    second character of a match cannot start another match, so scanning
    on from it finds the same matches as the regular expression. *)
Fixpoint splitLowerUpper (s : string) : string :=
  match s with
  | EmptyString => EmptyString
  | String a s' =>
      match s' with
      | String b _ =>
          if (isLower a || isDigit a) && isUpper b
          then String a (String NUL (splitLowerUpper s'))
          else String a (splitLowerUpper s')
      | EmptyString => String a EmptyString
      end
  end.

(** [input.replace(/([A-Z])([A-Z][a-z])/g, "$1\0$2")]: a NUL goes after an
    upper-case letter that is followed by an upper-case and a lower-case
    letter.  Neither of these two can start another match. *)
Fixpoint splitUpperWord (s : string) : string :=
  match s with
  | EmptyString => EmptyString
  | String a s' =>
      match s' with
      | String b (String c _) =>
          if isUpper a && isUpper b && isLower c
          then String a (String NUL (splitUpperWord s'))
          else String a (splitUpperWord s')
      | _ => String a (splitUpperWord s')
      end
  end.

(** [input.replace(/[^A-Z0-9]+/gi, "\0")]: every maximal run of characters
    that are not letters or digits becomes one NUL.  [inRun] tells that
    the previous character was part of such a run. *)
Fixpoint stripRun (inRun : bool) (s : string) : string :=
  match s with
  | EmptyString => EmptyString
  | String a s' =>
      if isAlnum a then String a (stripRun false s')
      else if inRun then stripRun true s'
      else String NUL (stripRun true s')
  end.

(** The number of NUL characters [s] starts with
    ([while (result.charAt(start) === "\0") start++]). *)
Fixpoint leadingNuls (s : string) : nat :=
  match s with
  | EmptyString => 0
  | String a s' => if Ascii.eqb a NUL then S (leadingNuls s') else 0
  end.

(** The number of NUL characters [s] ends with
    ([while (result.charAt(end - 1) === "\0") end--]). *)
Fixpoint trailingNuls (s : string) : nat :=
  match s with
  | EmptyString => 0
  | String a s' =>
      let n := trailingNuls s' in
      if (n =? String.length s') && Ascii.eqb a NUL then S n else n
  end.

(** [l.map(f)], where [f] receives the element and its index. *)
Fixpoint mapi_from {A B : Type} (f : A -> nat -> B) (i : nat) (l : list A)
  : list B :=
  match l with
  | [] => []
  | x :: l' => f x i :: mapi_from f (S i) l'
  end.

Definition mapi {A B : Type} (f : A -> nat -> B) (l : list A) : list B :=
  mapi_from f 0 l.

(** Modelled from the spec: [noCase(input, { delimiter, transform })] of the
    package no-case, with its default split and strip expressions, is what
    cuts a part into words and strips the separators: the three replacements
    mark the word boundaries with NUL, the marks at both ends are trimmed,
    and the words between the marks are transformed and joined. *)
Definition noCase (transform : string -> nat -> string) (delimiter : string)
    (input : string) : string :=
  let result := stripRun false (splitUpperWord (splitLowerUpper input)) in
  let start := leadingNuls result in
  let end_ := String.length result - trailingNuls result in
  Js.join delimiter
    (mapi transform
       (Js.split NUL (Js.slice result (Z.of_nat start) (Z.of_nat end_)))).

(** Modelled from the spec: the transformation of the word at [index]
    capitalizes its first letter and puts the other letters in lower case;
    a word after the first that starts with a digit gets an underscore in
    front. *)
Definition pascalCaseTransform (input : string) (index : nat) : string :=
  match input with
  | EmptyString => EmptyString
  | String firstChar rest =>
      let lowerChars := toLowerCase rest in
      if (0 <? index) && isDigit firstChar
      then String "_" (String firstChar lowerChars)
      else String (toUpper firstChar) lowerChars
  end.

(** Modelled from the spec: [pascalCase] of the package pascal-case, the
    word-capitalized form of a part: words are cut at every run of
    characters other than letters and digits and at lower-to-upper case
    changes, each word is capitalized, and the words are concatenated
    without separator. *)
Definition pascalCase (input : string) : string :=
  noCase pascalCaseTransform "" input.

End PascalCase.

(** ** The logical-name fragment of a domain *)

Section Identifier.

Variable pascalCase : string -> string.

(** The value of [domain] after the loop over the parts of the domain. *)
Definition dottedParts (domainParts : list string) : string :=
  fold_left
    (fun domain domainPart => (domain ++ pascalCase domainPart) ++ "Dot")
    domainParts "".

Definition domainNameToPascalCaseWith (domainName : string) : string :=
  let domainParts := Js.split "." domainName in
  let domain := dottedParts domainParts in
  Js.slice (Js.replace "-" "" domain) 0 (Js.lastIndexOf "Dot" domain).

End Identifier.

Definition domainNameToPascalCase (domainName : string) : string :=
  domainNameToPascalCaseWith PascalCase.pascalCase domainName.

(** ** The constructs created by the constructor *)

(** What an alias record points at. *)
Inductive RecordTarget : Type :=
| CloudFrontTarget (distribution : string)
| Route53RecordTarget (record : string).

(** The value of an output: a string computed by the construct, or an
    attribute of one of its resources. *)
Inductive OutputValue : Type :=
| Literal (value : string)
| BucketName
| CertificateArn
| DistributionId.

(** The description handed to each construct. *)
Inductive Resource : Type :=
| HostedZoneLookup (domainName : string)
| OriginAccessIdentity (comment : string)
| WaBucket (bucketName : string) (policyActions : list string)
| DnsValidatedCertificate (domainName : string) (hostedZone : string)
    (subjectAlternativeNames : list string)
| Distribution (certificate : string) (enableLogging : bool)
    (defaultRootObject : string) (domainNames : list string)
    (responsePagePath : string)
| BucketDeployment (source : string) (distributionPaths : list string)
| ARecord (recordName : string) (target : RecordTarget)
| CfnOutput (value : OutputValue).

(** The children of the construct, by id, in the order of their creation. *)
Definition Scope : Type := list (string * Resource).

(** A step of the constructor: it adds children to the scope and either
    returns a value or throws ([None]); what was added before an exception
    stays in the scope. *)
Definition Build (A : Type) : Type := Scope -> Scope * option A.

Definition ret {A : Type} (a : A) : Build A := fun sc => (sc, Some a).

Definition bind {A B : Type} (m : Build A) (k : A -> Build B) : Build B :=
  fun sc =>
    match m sc with
    | (sc', Some a) => k a sc'
    | (sc', None) => (sc', None)
    end.

Notation "m ;; k" := (bind m (fun _ => k))
  (at level 61, right associativity).

Definition hasChild (id : string) (sc : Scope) : bool :=
  existsb (fun child => String.eqb (fst child) id) sc.

(** [new R(this, id, ...)] adds a child with this id to the scope; the
    constructs library throws when the scope already has a child with the
    id. *)
Definition addChild (id : string) (r : Resource) : Build unit :=
  fun sc =>
    if hasChild id sc then (sc, None)
    else (List.app sc [(id, r)], Some tt).

(** [l.map(f)] for an [f] that creates constructs. *)
Fixpoint forEach {A : Type} (f : A -> Build unit) (l : list A) : Build unit :=
  match l with
  | [] => ret tt
  | x :: l' => f x ;; forEach f l'
  end.

(** A step of the constructor only adds children. *)
Definition adds {A : Type} (m : Build A) : Prop :=
  forall sc, exists more, fst (m sc) = (sc ++ more)%list.

(** The constructor of [X8Website], on the scope of the new construct.

    Of the ways in which the libraries can stop the constructor, the model
    has one, the repeated construct id.  The lookup of the hosted zone, the
    validation of the bucket name and the reading of the content directory
    can stop the real constructor on a request on which the model goes on,
    and [push] adds ["s3:GetObject"] to the array of the caller, where the
    model only gives the actions of the policy statement.  A run of the
    real constructor that returns has met no repeated id, so it is a run of
    the model that returns, with these children in this order. *)
Definition X8Website (name : string) (props : X8WebSiteProps) : Build unit :=
  let domainNameId := domainNameToPascalCase (waDomainName props) in
  let zone := domainNameId ++ "Zone" in
  addChild zone (HostedZoneLookup (waDomainName props)) ;;
  let wwwSiteDomain := getSiteDomain props in
  match waOriginAccessIdentity props with
  | Some _ => ret tt
  | None =>
      addChild "OriginAccessIdentity" (OriginAccessIdentity ("OAI for " ++ name))
  end ;;
  let bucketPolicyActions :=
    Js.concat (orDefault (waBucketPolicyActions props) []) ["s3:GetObject"] in
  addChild "WebsiteBucket" (WaBucket wwwSiteDomain bucketPolicyActions) ;;
  let certSans := getCertificateDomains props in
  addChild (domainNameId ++ "Cert")
    (DnsValidatedCertificate wwwSiteDomain zone certSans) ;;
  let distributionDomainWithSans := getDistributionDomains props in
  addChild (domainNameId ++ "Distribution")
    (Distribution (domainNameId ++ "Cert")
       (orDefault (waEnableCloudFrontLogging props) false)
       (orDefault (waDefaultRootObject props) "index.html")
       distributionDomainWithSans
       (orDefault (waErrorResponsePagePath props) "/error.html")) ;;
  addChild "DeployWithInvalidation"
    (BucketDeployment (orDefault (waPathToContent props) "build") ["/*"]) ;;
  let cfAliasRecord := domainNameId ++ "CfAliasRecord" in
  addChild cfAliasRecord
    (ARecord wwwSiteDomain (CloudFrontTarget (domainNameId ++ "Distribution"))) ;;
  forEach
    (fun certName =>
       let nameToPascalCase := domainNameToPascalCase certName in
       addChild (nameToPascalCase ++ "WwwAliasRecord")
         (ARecord certName (Route53RecordTarget cfAliasRecord)) ;;
       addChild (nameToPascalCase ++ "UrlOutput") (CfnOutput (Literal certName)))
    certSans ;;
  addChild "Bucket" (CfnOutput BucketName) ;;
  addChild "Certificate" (CfnOutput CertificateArn) ;;
  addChild "DistributionId" (CfnOutput DistributionId) ;;
  addChild "WebsiteUrl" (CfnOutput (Literal ("https://" ++ wwwSiteDomain))).


(** The scope of a new construct after its constructor ran, and whether the
    constructor returned. *)
Definition built (name : string) (props : X8WebSiteProps) : Scope :=
  fst (X8Website name props []).

Definition completes (name : string) (props : X8WebSiteProps) : bool :=
  match snd (X8Website name props []) with
  | Some _ => true
  | None => false
  end.


(** A lower-case letter or a digit. *)
Definition plain (c : ascii) : bool :=
  PascalCase.isLower c || PascalCase.isDigit c.

(** A label made of lower-case letters and digits that starts with a
    letter, and a domain made of such labels. *)
Definition simpleLabel (s : string) : bool :=
  match s with
  | EmptyString => false
  | String c s' => PascalCase.isLower c && forallChars plain s'
  end.

Definition simpleDomain (domainName : string) : bool :=
  forallb simpleLabel (Js.split "." domainName).

(** [props] without its sub-domain. *)
Definition withoutSubDomain (props : X8WebSiteProps) : X8WebSiteProps :=
  mkProps (waDomainName props) None (waPathToContent props)
    (waAdditionalDomainNames props) (waDefaultRootObject props)
    (waErrorResponsePagePath props) (waBucketPolicyActions props)
    (waOriginAccessIdentity props) (waEnableCloudFrontLogging props).

(** ** Requests used as examples *)

Definition request (domain : string) (sub : option string)
    (additional : option (list string)) : X8WebSiteProps :=
  mkProps domain sub None additional None None None None None.

Definition plainRequest : X8WebSiteProps :=
  request "example.com" None None.

Definition wwwRequest : X8WebSiteProps :=
  request "example.com" (Some "www") None.

Definition shopRequest : X8WebSiteProps :=
  request "example.com" (Some "shop") (Some ["alt.example.com"]).

Definition emptySubDomainRequest : X8WebSiteProps :=
  request "example.com" (Some "") (Some ["alt.example.com"]).

Definition siteAsAdditionalRequest : X8WebSiteProps :=
  request "example.com" None (Some ["www.example.com"]).

Definition repeatedAdditionalRequest : X8WebSiteProps :=
  request "example.com" None (Some ["alt.example.com"; "alt.example.com"]).

(** ** The characters of an identifier *)

(** A letter, a digit or an underscore. *)
Definition identifierChar (c : ascii) : bool :=
  PascalCase.isAlnum c || Ascii.eqb c "_".

(** [s] with its first letter in upper case. *)
Definition capitalize (s : string) : string :=
  match s with
  | EmptyString => EmptyString
  | String c s' => String (PascalCase.toUpper c) s'
  end.

(** ** Reading the children of a construct *)

(** The first child with a given id. *)
Fixpoint lookupChild (id : string) (sc : Scope) : option Resource :=
  match sc with
  | [] => None
  | (i, r) :: sc' => if String.eqb i id then Some r else lookupChild id sc'
  end.

(** The records that point at another record, as record name and target. *)
Fixpoint aliasRecords (sc : Scope) : list (string * string) :=
  match sc with
  | [] => []
  | (_, ARecord recordName (Route53RecordTarget record)) :: sc' =>
      (recordName, record) :: aliasRecords sc'
  | _ :: sc' => aliasRecords sc'
  end.

(** The outputs whose value is a string computed by the construct. *)
Fixpoint literalOutputs (sc : Scope) : list string :=
  match sc with
  | [] => []
  | (_, CfnOutput (Literal value)) :: sc' => value :: literalOutputs sc'
  | _ :: sc' => literalOutputs sc'
  end.

(** The two constructs created for a certificate domain. *)
Definition certificateChildren (cfAliasRecord certName : string) : Scope :=
  let nameToPascalCase := domainNameToPascalCase certName in
  [(nameToPascalCase ++ "WwwAliasRecord",
    ARecord certName (Route53RecordTarget cfAliasRecord));
   (nameToPascalCase ++ "UrlOutput", CfnOutput (Literal certName))].

(** The constructs created before those of the certificate domains. *)
Definition firstChildren (name : string) (props : X8WebSiteProps) : Scope :=
  let domainNameId := domainNameToPascalCase (waDomainName props) in
  let zone := domainNameId ++ "Zone" in
  let certificate := domainNameId ++ "Cert" in
  let distribution := domainNameId ++ "Distribution" in
  let cfAliasRecord := domainNameId ++ "CfAliasRecord" in
  let comment := "OAI for " ++ name in
  let wwwSiteDomain := getSiteDomain props in
  List.app
    ((zone, HostedZoneLookup (waDomainName props))
     :: match waOriginAccessIdentity props with
        | Some _ => []
        | None => [("OriginAccessIdentity", OriginAccessIdentity comment)]
        end)
    [("WebsiteBucket",
      WaBucket wwwSiteDomain
        (Js.concat (orDefault (waBucketPolicyActions props) [])
           ["s3:GetObject"]));
     (certificate,
      DnsValidatedCertificate wwwSiteDomain zone (getCertificateDomains props));
     (distribution,
      Distribution certificate
        (orDefault (waEnableCloudFrontLogging props) false)
        (orDefault (waDefaultRootObject props) "index.html")
        (getDistributionDomains props)
        (orDefault (waErrorResponsePagePath props) "/error.html"));
     ("DeployWithInvalidation",
      BucketDeployment (orDefault (waPathToContent props) "build") ["/*"]);
     (cfAliasRecord, ARecord wwwSiteDomain (CloudFrontTarget distribution))].

(** The outputs created after those of the certificate domains. *)
Definition lastChildren (props : X8WebSiteProps) : Scope :=
  [("Bucket", CfnOutput BucketName);
   ("Certificate", CfnOutput CertificateArn);
   ("DistributionId", CfnOutput DistributionId);
   ("WebsiteUrl", CfnOutput (Literal ("https://" ++ getSiteDomain props)))].

(** All the constructs of a constructor that returns, in their order. *)
Definition allChildren (name : string) (props : X8WebSiteProps) : Scope :=
  let cfAliasRecord :=
    domainNameToPascalCase (waDomainName props) ++ "CfAliasRecord" in
  List.app (firstChildren name props)
    (List.app
       (flat_map (certificateChildren cfAliasRecord)
          (getCertificateDomains props))
       (lastChildren props)).

(** The ids of the children of a scope, in their order. *)
Definition childIds (sc : Scope) : list string := map fst sc.

(** A step of the constructor keeps the ids of a scope pairwise distinct. *)
Definition keepsDistinct {A : Type} (m : Build A) : Prop :=
  forall sc, NoDup (childIds sc) -> NoDup (childIds (fst (m sc))).

(** ** Strings that end differently *)

Fixpoint reverseOnto (s acc : string) : string :=
  match s with
  | EmptyString => acc
  | String c s' => reverseOnto s' (String c acc)
  end.

Definition reverse (s : string) : string := reverseOnto s "".

(** Neither string goes on where the other stops: they differ at a place
    that both have. *)
Fixpoint differEarly (s t : string) : bool :=
  match s, t with
  | String a s', String b t' => negb (Ascii.eqb a b) || differEarly s' t'
  | _, _ => false
  end.

(** Two endings that no string can have both. *)
Definition endDifferently (u v : string) : bool :=
  differEarly (reverse u) (reverse v).

(** ** The earlier constructor ([src/unnamed/part_000])

    The earlier version of the construct has one site domain, made of the
    sub-domain [waSiteSubDomain] (["www"] when absent) and the domain name,
    and no additional domains.  Its [domainNameToPascalCase] is the same
    function. *)

Module Part000.

Record X8WebSiteProps : Type := mkProps {
  waDomainName : string;
  waSiteSubDomain : option string;
  waPathToContent : option string;
  waDefaultRootObject : option string;
  waErrorResponsePagePath : option string;
  waBucketPolicyActions : option (list string);
  waOriginAccessIdentity : option string;
  waEnableCloudFrontLogging : option bool
}.

(** [const subDomain = props.waSiteSubDomain ?? "www"] and
    [`${subDomain}.${props.waDomainName}`]. *)
Definition siteDomain (props : X8WebSiteProps) : string :=
  let subDomain := orDefault (waSiteSubDomain props) "www" in
  subDomain ++ "." ++ waDomainName props.

(** The constructor; the certificate is given no subject alternative
    name.  As for the later version, the repeated construct id is the one
    way to throw that the model has. *)
Definition X8Website (name : string) (props : X8WebSiteProps) : Build unit :=
  let domainNameId := domainNameToPascalCase (waDomainName props) in
  let zone := domainNameId ++ "Zone" in
  addChild zone (HostedZoneLookup (waDomainName props)) ;;
  let siteDomain := siteDomain props in
  match waOriginAccessIdentity props with
  | Some _ => ret tt
  | None =>
      addChild "OriginAccessIdentity" (OriginAccessIdentity ("OAI for " ++ name))
  end ;;
  let bucketPolicyActions :=
    Js.concat (orDefault (waBucketPolicyActions props) []) ["s3:GetObject"] in
  addChild "WebsiteBucket" (WaBucket siteDomain bucketPolicyActions) ;;
  addChild (domainNameId ++ "Cert")
    (DnsValidatedCertificate siteDomain zone []) ;;
  addChild (domainNameId ++ "Distribution")
    (Distribution (domainNameId ++ "Cert")
       (orDefault (waEnableCloudFrontLogging props) false)
       (orDefault (waDefaultRootObject props) "index.html")
       [siteDomain]
       (orDefault (waErrorResponsePagePath props) "/error.html")) ;;
  addChild (domainNameId ++ "AliasRecord")
    (ARecord siteDomain (CloudFrontTarget (domainNameId ++ "Distribution"))) ;;
  addChild "DeployWithInvalidation"
    (BucketDeployment (orDefault (waPathToContent props) "build") ["/*"]) ;;
  addChild "Bucket" (CfnOutput BucketName) ;;
  addChild "Certificate" (CfnOutput CertificateArn) ;;
  addChild "DistributionId" (CfnOutput DistributionId) ;;
  addChild "WebsiteUrl" (CfnOutput (Literal ("https://" ++ siteDomain))).

(** The children of a new construct after the constructor ran. *)
Definition built (name : string) (props : X8WebSiteProps) : Scope :=
  fst (X8Website name props []).

Definition completes (name : string) (props : X8WebSiteProps) : bool :=
  match snd (X8Website name props []) with
  | Some _ => true
  | None => false
  end.

End Part000.

(** ** More requests used as examples *)

Definition collidingRequest : X8WebSiteProps :=
  request "example.com" None (Some ["a-dot-b.com"; "a.b.com"]).

Definition earlierShopRequest : Part000.X8WebSiteProps :=
  Part000.mkProps "example.com" (Some "shop") None None None None None None.

(** * Properties *)

(** ** Facts on strings *)

Lemma length_append (s t : string) :
  String.length (s ++ t) = String.length s + String.length t.
Proof.
  induction s as [|c s IH]; simpl; [reflexivity | now rewrite IH].
Qed.

Lemma append_assoc (s t u : string) : (s ++ t) ++ u = s ++ (t ++ u).
Proof.
  induction s as [|c s IH]; simpl; [reflexivity | now rewrite IH].
Qed.

Lemma append_empty_r (s : string) : s ++ "" = s.
Proof.
  induction s as [|c s IH]; simpl; [reflexivity | now rewrite IH].
Qed.


(** ** The sub-domain test *)

Lemma custom_subdomain_true (o : option string) :
  Js.truthy o && differs o wwwSubDomain = true <->
  exists sub, o = Some sub /\ sub <> "" /\ sub <> "www".
Proof.
  unfold wwwSubDomain. split.
  - destruct o as [sub|]; simpl; [|discriminate].
    intros H. apply andb_true_iff in H as [H1 H2].
    apply negb_true_iff in H1, H2.
    apply String.eqb_neq in H1, H2.
    exists sub. auto.
  - intros (sub & -> & H1 & H2). simpl.
    apply String.eqb_neq in H1, H2. now rewrite H1, H2.
Qed.

Lemma custom_subdomain_false (o : option string) :
  Js.truthy o && differs o wwwSubDomain = false <->
  o = None \/ o = Some "" \/ o = Some "www".
Proof.
  unfold wwwSubDomain. split.
  - destruct o as [sub|]; simpl; [|auto].
    intros H. apply andb_false_iff in H as [H|H];
      apply negb_false_iff, String.eqb_eq in H; subst; auto.
  - intros [->|[->| ->]]; reflexivity.
Qed.

(** ** The site domain *)

Lemma getSiteDomain_custom (props : X8WebSiteProps) (sub : string) :
  waSubDomain props = Some sub -> sub <> "" -> sub <> "www" ->
  getSiteDomain props = "www." ++ sub ++ "." ++ waDomainName props.
Proof.
  intros E H1 H2. unfold getSiteDomain.
  assert (T : Js.truthy (waSubDomain props)
              && differs (waSubDomain props) wwwSubDomain = true)
    by (apply custom_subdomain_true; eauto).
  rewrite T, E. reflexivity.
Qed.

Lemma getSiteDomain_default (props : X8WebSiteProps) :
  waSubDomain props = None \/ waSubDomain props = Some ""
    \/ waSubDomain props = Some "www" ->
  getSiteDomain props = "www." ++ waDomainName props.
Proof.
  intros H. apply custom_subdomain_false in H.
  unfold getSiteDomain. rewrite H. reflexivity.
Qed.

(** C1 (as stated, refuted): the request with the empty sub-domain has a
    sub-domain that is present and is not ["www"], and its site domain is
    ["www.example.com"], not ["www..example.com"]. *)
Lemma site_domain_empty_subdomain_counterexample :
  waSubDomain emptySubDomainRequest = Some ""
  /\ "" <> "www"
  /\ getSiteDomain emptySubDomainRequest = "www.example.com"
  /\ getSiteDomain emptySubDomainRequest
     <> "www." ++ "" ++ "." ++ waDomainName emptySubDomainRequest.
Proof.
  repeat split; discriminate.
Qed.

(** C1 (amended): when the sub-domain is present, not empty and not ["www"],
    [getSiteDomain] returns ["www." + subDomain + "." + baseDomain]. *)
Theorem site_domain_custom_subdomain (props : X8WebSiteProps) (sub : string) :
  waSubDomain props = Some sub -> sub <> "" -> sub <> "www" ->
  getSiteDomain props = "www." ++ sub ++ "." ++ waDomainName props.
Proof.
  exact (getSiteDomain_custom props sub).
Qed.

Lemma site_domain_custom_subdomain_witness :
  getSiteDomain shopRequest = "www." ++ "shop" ++ "." ++ "example.com".
Proof.
  apply (site_domain_custom_subdomain shopRequest "shop");
    [reflexivity | discriminate | discriminate].
Defined.

(** C2: when the sub-domain is absent or is ["www"], [getSiteDomain] returns
    ["www." + baseDomain]. *)
Theorem site_domain_default (props : X8WebSiteProps) :
  waSubDomain props = None \/ waSubDomain props = Some "www" ->
  getSiteDomain props = "www." ++ waDomainName props.
Proof.
  intros [H|H]; apply getSiteDomain_default; auto.
Qed.

Lemma site_domain_default_witness :
  getSiteDomain plainRequest = "www." ++ "example.com"
  /\ getSiteDomain wwwRequest = "www." ++ "example.com".
Proof.
  split.
  - apply (site_domain_default plainRequest). left. reflexivity.
  - apply (site_domain_default wwwRequest). right. reflexivity.
Defined.

(** ** The certificate domains *)

Lemma getCertificateDomains_custom (props : X8WebSiteProps) (sub : string) :
  waSubDomain props = Some sub -> sub <> "" -> sub <> "www" ->
  getCertificateDomains props
  = (sub ++ "." ++ waDomainName props) :: additionalDomains props.
Proof.
  intros E H1 H2. unfold getCertificateDomains, additionalDomains.
  assert (T : Js.truthy (waSubDomain props)
              && differs (waSubDomain props) wwwSubDomain = true)
    by (apply custom_subdomain_true; eauto).
  rewrite T, E. destruct (waAdditionalDomainNames props); reflexivity.
Qed.

Lemma getCertificateDomains_default (props : X8WebSiteProps) :
  waSubDomain props = None \/ waSubDomain props = Some ""
    \/ waSubDomain props = Some "www" ->
  getCertificateDomains props = waDomainName props :: additionalDomains props.
Proof.
  intros H. apply custom_subdomain_false in H.
  unfold getCertificateDomains, additionalDomains. rewrite H.
  destruct (waAdditionalDomainNames props); reflexivity.
Qed.

Lemma getCertificateDomains_tail (props : X8WebSiteProps) :
  exists primary,
    getCertificateDomains props = primary :: additionalDomains props.
Proof.
  unfold getCertificateDomains, additionalDomains.
  destruct (Js.truthy _ && _), (waAdditionalDomainNames props);
    simpl; eauto.
Qed.

Lemma getCertificateDomains_length (props : X8WebSiteProps) :
  List.length (getCertificateDomains props)
  = 1 + List.length (additionalDomains props).
Proof.
  destruct (getCertificateDomains_tail props) as [primary ->]. reflexivity.
Qed.

(** C3 (as stated, refuted): for the request with the empty sub-domain, which
    is present and is not ["www"], the first certificate domain is the base
    domain, not the sub-domain, a dot and the base domain. *)
Lemma certificate_domains_empty_subdomain_counterexample :
  waSubDomain emptySubDomainRequest = Some ""
  /\ "" <> "www"
  /\ getCertificateDomains emptySubDomainRequest
     = ["example.com"; "alt.example.com"]
  /\ List.hd_error (getCertificateDomains emptySubDomainRequest)
     <> Some ("" ++ "." ++ waDomainName emptySubDomainRequest).
Proof.
  repeat split; discriminate.
Qed.

(** C3 (amended): the certificate domains are one primary domain followed by
    the additional domains in their order, so there are
    [1 + len(additionalDomains)] of them; the primary domain is
    [subDomain + "." + baseDomain] when the sub-domain is present, not empty
    and not ["www"], and the base domain when the sub-domain is absent, empty
    or ["www"]. *)
Theorem certificate_domains_shape (props : X8WebSiteProps) :
  (forall sub,
      waSubDomain props = Some sub -> sub <> "" -> sub <> "www" ->
      getCertificateDomains props
      = (sub ++ "." ++ waDomainName props) :: additionalDomains props)
  /\ (waSubDomain props = None \/ waSubDomain props = Some ""
        \/ waSubDomain props = Some "www" ->
      getCertificateDomains props
      = waDomainName props :: additionalDomains props)
  /\ List.length (getCertificateDomains props)
     = 1 + List.length (additionalDomains props).
Proof.
  split; [|split].
  - apply getCertificateDomains_custom.
  - apply getCertificateDomains_default.
  - apply getCertificateDomains_length.
Qed.

(** ** The distribution domains *)

(** C4: the distribution domains are the certificate domains followed by the
    site domain, [2 + len(additionalDomains)] entries in all. *)
Theorem distribution_domains_shape (props : X8WebSiteProps) :
  getDistributionDomains props
  = (getCertificateDomains props ++ [getSiteDomain props])%list
  /\ List.length (getDistributionDomains props)
     = 2 + List.length (additionalDomains props).
Proof.
  split; [reflexivity|].
  unfold getDistributionDomains, Js.concat.
  rewrite List.length_app, getCertificateDomains_length. simpl. lia.
Qed.

(** The primary certificate domain is four characters shorter than the site
    domain, so the two differ. *)
Lemma primary_is_not_site (props : X8WebSiteProps) :
  List.hd_error (getCertificateDomains props) <> Some (getSiteDomain props).
Proof.
  unfold getCertificateDomains, getSiteDomain.
  destruct (Js.truthy _ && _), (waAdditionalDomainNames props); simpl;
    intros H; injection H as H;
    apply (f_equal String.length) in H; simpl in H;
    repeat (rewrite ?length_append in H; simpl in H); lia.
Qed.

(** C5 (as stated, refuted): when the caller lists the site domain among the
    additional domains, it is twice among the distribution domains. *)
Lemma site_domain_twice_counterexample :
  getDistributionDomains siteAsAdditionalRequest
  = ["example.com"; "www.example.com"; "www.example.com"]
  /\ getSiteDomain siteAsAdditionalRequest = "www.example.com"
  /\ ~ (List.count_occ string_dec
          (getDistributionDomains siteAsAdditionalRequest)
          (getSiteDomain siteAsAdditionalRequest) <= 1).
Proof.
  repeat split. vm_compute. lia.
Qed.

(** C5 (amended): the site domain is among the distribution domains once more
    than it is among the additional domains: the construct adds it once, at
    the end, and the copies a caller lists stay. *)
Theorem site_domain_occurrences (props : X8WebSiteProps) :
  List.count_occ string_dec (getDistributionDomains props)
    (getSiteDomain props)
  = S (List.count_occ string_dec (additionalDomains props)
         (getSiteDomain props)).
Proof.
  pose proof (primary_is_not_site props) as N.
  unfold getDistributionDomains, Js.concat.
  destruct (getCertificateDomains_tail props) as [primary E].
  rewrite E in *. simpl in N.
  rewrite List.count_occ_app. simpl.
  destruct (string_dec primary (getSiteDomain props)) as [->|_];
    [now elim N|].
  destruct (string_dec (getSiteDomain props) (getSiteDomain props));
    [lia|congruence].
Qed.

(** ** The empty sub-domain *)

(** C10: an empty sub-domain is treated as an absent one: the site domain is
    ["www." + waDomainName], the first certificate domain is [waDomainName],
    and the three computations give what they give without the sub-domain. *)
Theorem empty_subdomain_as_absent (props : X8WebSiteProps) :
  waSubDomain props = Some "" ->
  getSiteDomain props = "www." ++ waDomainName props
  /\ getCertificateDomains props = waDomainName props :: additionalDomains props
  /\ getSiteDomain props = getSiteDomain (withoutSubDomain props)
  /\ getCertificateDomains props = getCertificateDomains (withoutSubDomain props)
  /\ getDistributionDomains props
     = getDistributionDomains (withoutSubDomain props).
Proof.
  intros E.
  assert (S1 : getSiteDomain props = getSiteDomain (withoutSubDomain props))
    by (unfold getSiteDomain; rewrite E; reflexivity).
  assert (S2 : getCertificateDomains props
               = getCertificateDomains (withoutSubDomain props))
    by (unfold getCertificateDomains; rewrite E; reflexivity).
  split; [apply getSiteDomain_default; auto|].
  split; [apply getCertificateDomains_default; auto|].
  split; [exact S1|]. split; [exact S2|].
  unfold getDistributionDomains. now rewrite S1, S2.
Qed.

Lemma empty_subdomain_as_absent_witness :
  getSiteDomain emptySubDomainRequest
  = "www." ++ waDomainName emptySubDomainRequest
  /\ getCertificateDomains emptySubDomainRequest
     = waDomainName emptySubDomainRequest
       :: additionalDomains emptySubDomainRequest
  /\ getSiteDomain emptySubDomainRequest
     = getSiteDomain (withoutSubDomain emptySubDomainRequest)
  /\ getCertificateDomains emptySubDomainRequest
     = getCertificateDomains (withoutSubDomain emptySubDomainRequest)
  /\ getDistributionDomains emptySubDomainRequest
     = getDistributionDomains (withoutSubDomain emptySubDomainRequest).
Proof.
  apply (empty_subdomain_as_absent emptySubDomainRequest). reflexivity.
Defined.

(** ** Facts on the string primitives *)

Lemma forallChars_append (P : ascii -> bool) (s t : string) :
  forallChars P (s ++ t) = forallChars P s && forallChars P t.
Proof.
  induction s as [|c s IH]; simpl; [reflexivity|].
  now rewrite IH, andb_assoc.
Qed.

Lemma prefix_length (p s : string) :
  Js.startsWith p s = true -> String.length p <= String.length s.
Proof.
  revert s. induction p as [|a p IH]; intros [|b s]; simpl;
    try lia; try discriminate.
  intros H. apply andb_true_iff in H as [_ H]. apply IH in H. lia.
Qed.

Lemma prefix_append (p s : string) : Js.startsWith p (p ++ s) = true.
Proof.
  induction p as [|a p IH]; simpl; [reflexivity|].
  now rewrite Ascii.eqb_refl.
Qed.

Lemma prefix_hyphen (s : string) :
  Js.startsWith "-" s = true -> exists s', s = String "-" s'.
Proof.
  destruct s as [|b s]; cbn [Js.startsWith]; [discriminate|].
  intros H. apply andb_true_iff in H as [H _].
  apply Ascii.eqb_eq in H as <-. eauto.
Qed.

(** The replacement of ["-"] leaves a string without hyphen as it is. *)
Lemma replace_hyphenFree (s : string) :
  hyphenFree s = true -> Js.replace "-" "" s = s.
Proof.
  unfold hyphenFree. induction s as [|c s IH]; [reflexivity|].
  intros H. simpl in H. apply andb_true_iff in H as [Hc Hs].
  unfold Js.replace; fold Js.replace.
  destruct (Js.startsWith "-" (String c s)) eqn:P.
  - apply prefix_hyphen in P as [s' P]. injection P as -> _.
    vm_compute in Hc. discriminate.
  - now rewrite IH.
Qed.

(** It removes the first hyphen, and only this one. *)
Lemma replace_first_hyphen (s t : string) :
  hyphenFree s = true -> Js.replace "-" "" (s ++ String "-" t) = s ++ t.
Proof.
  unfold hyphenFree. induction s as [|c s IH]; intros H.
  - simpl. now destruct t.
  - simpl in H. apply andb_true_iff in H as [Hc Hs].
    change (String c s ++ String "-" t) with (String c (s ++ String "-" t)).
    unfold Js.replace; fold Js.replace.
    destruct (Js.startsWith "-" (String c (s ++ String "-" t))) eqn:P.
    + apply prefix_hyphen in P as [s' P]. injection P as -> _.
      vm_compute in Hc. discriminate.
    + simpl. now rewrite IH.
Qed.

Lemma lastIndexOf_from_bounds (pat s : string) (i : Z) :
  (0 <= i)%Z ->
  Js.lastIndexOf_from pat s i = (-1)%Z
  \/ (i <= Js.lastIndexOf_from pat s i
      /\ Js.lastIndexOf_from pat s i + Z.of_nat (String.length pat)
         <= i + Z.of_nat (String.length s))%Z.
Proof.
  revert i. induction s as [|c s IH]; intros i Hi.
  - simpl. destruct pat; simpl; auto. right. lia.
  - cbn [Js.lastIndexOf_from].
    destruct (IH (i + 1)%Z ltac:(lia)) as [E|[L U]].
    + rewrite E. change (0 <=? -1)%Z with false. cbv iota.
      destruct (Js.startsWith pat (String c s)) eqn:P; auto.
      apply prefix_length in P. right. lia.
    + destruct (0 <=? Js.lastIndexOf_from pat s (i + 1))%Z eqn:G;
        [|apply Z.leb_gt in G; lia].
      right. simpl String.length. lia.
Qed.

Lemma lastIndexOf_from_append (pat s t : string) (i : Z) :
  (0 <= i)%Z ->
  (i + Z.of_nat (String.length s)
   <= Js.lastIndexOf_from pat (s ++ pat ++ t) i)%Z.
Proof.
  revert i. induction s as [|c s IH]; intros i Hi.
  - simpl String.length. simpl append.
    destruct (pat ++ t) as [|c u] eqn:E.
    + simpl. destruct pat; [simpl; lia | discriminate].
    + cbn [Js.lastIndexOf_from].
      destruct (0 <=? Js.lastIndexOf_from pat u (i + 1))%Z eqn:G.
      * destruct (lastIndexOf_from_bounds pat u (i + 1)%Z ltac:(lia))
          as [B|B]; [rewrite B in G; discriminate | lia].
      * rewrite <- E, prefix_append. lia.
  - change (String c s ++ pat ++ t) with (String c (s ++ pat ++ t)).
    cbn [Js.lastIndexOf_from].
    specialize (IH (i + 1)%Z ltac:(lia)).
    destruct (0 <=? Js.lastIndexOf_from pat (s ++ pat ++ t) (i + 1))%Z eqn:G;
      [|apply Z.leb_gt in G; lia].
    simpl String.length. lia.
Qed.

(** The last occurrence of a pattern in a string that ends with it. *)
Lemma lastIndexOf_suffix (pat s : string) :
  Js.lastIndexOf pat (s ++ pat) = Z.of_nat (String.length s).
Proof.
  unfold Js.lastIndexOf.
  pose proof (lastIndexOf_from_append pat s "" 0%Z ltac:(lia)) as L.
  rewrite append_empty_r in L.
  destruct (lastIndexOf_from_bounds pat (s ++ pat) 0%Z ltac:(lia)) as [B|B];
    [rewrite B in L; lia|].
  rewrite length_append in B. lia.
Qed.

Lemma substring_prefix (s t : string) :
  String.substring 0 (String.length s) (s ++ t) = s.
Proof.
  induction s as [|c s IH]; simpl; [now destruct t | now rewrite IH].
Qed.

Lemma slice_prefix (s t : string) :
  Js.slice (s ++ t) 0 (Z.of_nat (String.length s)) = s.
Proof.
  unfold Js.slice. rewrite length_append.
  change (0 <? 0)%Z with false.
  destruct (Z.of_nat (String.length s) <? 0)%Z eqn:N;
    [apply Z.ltb_lt in N; lia|].
  cbv iota.
  set (L := Z.of_nat (String.length s + String.length t)).
  assert (HL : (Z.of_nat (String.length s) <= L)%Z) by (subst L; lia).
  replace (Z.min 0 L) with 0%Z by lia.
  replace (Z.min (Z.of_nat (String.length s)) L)
    with (Z.of_nat (String.length s)) by lia.
  replace (Z.max (Z.of_nat (String.length s) - 0) 0)
    with (Z.of_nat (String.length s)) by lia.
  rewrite Nat2Z.id. apply substring_prefix.
Qed.

Lemma split_not_nil (sep : ascii) (s : string) : Js.split sep s <> [].
Proof.
  destruct s as [|c s]; simpl; [discriminate|].
  destruct (Ascii.eqb c sep); [discriminate|].
  destruct (Js.split sep s); discriminate.
Qed.

(** ** The logical-name fragment, for any [pascalCase] *)

Section IdentifierFacts.

Variable pascalCase : string -> string.

Lemma dottedParts_from (parts : list string) (domain : string) :
  fold_left
    (fun domain domainPart => (domain ++ pascalCase domainPart) ++ "Dot")
    parts domain
  = domain ++ dottedParts pascalCase parts.
Proof.
  unfold dottedParts. revert domain.
  induction parts as [|p parts IH]; intros domain; simpl.
  - now rewrite append_empty_r.
  - rewrite IH, (IH (pascalCase p ++ "Dot")), !append_assoc. reflexivity.
Qed.

Lemma dottedParts_cons (p : string) (parts : list string) :
  dottedParts pascalCase (p :: parts)
  = pascalCase p ++ "Dot" ++ dottedParts pascalCase parts.
Proof.
  unfold dottedParts at 1. simpl fold_left.
  now rewrite dottedParts_from, append_assoc.
Qed.

(** After the loop, [domain] is the parts in Pascal case joined by ["Dot"],
    and a last ["Dot"]. *)
Lemma dottedParts_join (parts : list string) :
  parts <> [] ->
  dottedParts pascalCase parts
  = Js.join "Dot" (map pascalCase parts) ++ "Dot".
Proof.
  induction parts as [|p parts IH]; [congruence|]. intros _.
  rewrite dottedParts_cons. destruct parts as [|q parts].
  - reflexivity.
  - rewrite IH by discriminate.
    change (Js.join "Dot" (map pascalCase (p :: q :: parts)))
      with (pascalCase p ++ "Dot" ++ Js.join "Dot" (map pascalCase (q :: parts))).
    now rewrite !append_assoc.
Qed.

Hypothesis pascalCase_hyphenFree : forall s, hyphenFree (pascalCase s) = true.

Lemma dottedParts_hyphenFree (parts : list string) :
  hyphenFree (dottedParts pascalCase parts) = true.
Proof.
  induction parts as [|p parts IH]; [reflexivity|].
  rewrite dottedParts_cons. unfold hyphenFree in *.
  rewrite !forallChars_append, pascalCase_hyphenFree, IH. reflexivity.
Qed.

(** When [pascalCase] leaves no hyphen, the replacement changes nothing, the
    slice drops the last ["Dot"], and the result is the parts in Pascal case
    joined by ["Dot"]. *)
Lemma domainNameToPascalCaseWith_join (domainName : string) :
  domainNameToPascalCaseWith pascalCase domainName
  = Js.join "Dot" (map pascalCase (Js.split "." domainName)).
Proof.
  unfold domainNameToPascalCaseWith.
  rewrite replace_hyphenFree by apply dottedParts_hyphenFree.
  rewrite dottedParts_join by apply split_not_nil.
  rewrite lastIndexOf_suffix. apply slice_prefix.
Qed.

End IdentifierFacts.

(** ** The result of [pascalCase] holds no hyphen *)

Lemma forallChars_substring (P : ascii -> bool) (n m : nat) (s : string) :
  forallChars P s = true -> forallChars P (String.substring n m s) = true.
Proof.
  revert n m. induction s as [|c s IH]; intros n m H.
  - destruct n, m; reflexivity.
  - simpl in H. apply andb_true_iff in H as [Hc Hs].
    destruct n as [|n]; [destruct m as [|m]|]; simpl; auto.
    now rewrite Hc, IH.
Qed.

Lemma forallChars_slice (P : ascii -> bool) (s : string) (b e : Z) :
  forallChars P s = true -> forallChars P (Js.slice s b e) = true.
Proof.
  apply forallChars_substring.
Qed.

Lemma forallChars_split (P : ascii -> bool) (sep : ascii) (s : string) :
  forallChars P s = true ->
  Forall (fun part => forallChars P part = true) (Js.split sep s).
Proof.
  induction s as [|c s IH]; simpl; intros H.
  - repeat constructor.
  - apply andb_true_iff in H as [Hc Hs]. specialize (IH Hs).
    destruct (Ascii.eqb c sep).
    + constructor; [reflexivity | exact IH].
    + destruct (Js.split sep s) as [|p ps].
      * repeat constructor. simpl. now rewrite Hc.
      * inversion IH; subst. constructor; [|assumption].
        simpl. now rewrite Hc.
Qed.

Lemma forallChars_join (P : ascii -> bool) (sep : string) (l : list string) :
  forallChars P sep = true ->
  Forall (fun part => forallChars P part = true) l ->
  forallChars P (Js.join sep l) = true.
Proof.
  intros Hsep. induction 1 as [|p l Hp Hl IH]; [reflexivity|].
  destruct l as [|q l]; [exact Hp|].
  change (Js.join sep (p :: q :: l)) with (p ++ sep ++ Js.join sep (q :: l)).
  now rewrite !forallChars_append, Hp, Hsep, IH.
Qed.

Lemma Forall_mapi_from {A B : Type} (P : A -> Prop) (Q : B -> Prop)
    (f : A -> nat -> B) (i : nat) (l : list A) :
  (forall x n, P x -> Q (f x n)) ->
  Forall P l -> Forall Q (PascalCase.mapi_from f i l).
Proof.
  intros Hf H. revert i. induction H; intros i; simpl; constructor; auto.
Qed.

Lemma isAlnum_notHyphen (c : ascii) :
  PascalCase.isAlnum c = true -> notHyphen c = true.
Proof.
  unfold notHyphen. destruct (Ascii.eqb_spec c "-") as [->|]; [|reflexivity].
  discriminate.
Qed.

Lemma stripRun_hyphenFree (inRun : bool) (s : string) :
  hyphenFree (PascalCase.stripRun inRun s) = true.
Proof.
  unfold hyphenFree. revert inRun.
  induction s as [|c s IH]; intros inRun; simpl; [reflexivity|].
  destruct (PascalCase.isAlnum c) eqn:A.
  - simpl. now rewrite isAlnum_notHyphen, IH.
  - destruct inRun; simpl; auto.
Qed.

Lemma toUpper_notHyphen (c : ascii) :
  notHyphen c = true -> notHyphen (PascalCase.toUpper c) = true.
Proof.
  destruct c as [[] [] [] [] [] [] [] []]; intros H; exact H || reflexivity.
Qed.

Lemma toLower_notHyphen (c : ascii) :
  notHyphen c = true -> notHyphen (PascalCase.toLower c) = true.
Proof.
  destruct c as [[] [] [] [] [] [] [] []]; intros H; exact H || reflexivity.
Qed.

Lemma toLowerCase_hyphenFree (s : string) :
  hyphenFree s = true -> hyphenFree (PascalCase.toLowerCase s) = true.
Proof.
  unfold hyphenFree, PascalCase.toLowerCase.
  induction s as [|c s IH]; simpl; [reflexivity|]. intros H.
  apply andb_true_iff in H as [Hc Hs].
  now rewrite toLower_notHyphen, IH.
Qed.

Lemma pascalCaseTransform_hyphenFree (input : string) (index : nat) :
  hyphenFree input = true ->
  hyphenFree (PascalCase.pascalCaseTransform input index) = true.
Proof.
  destruct input as [|c rest]; [reflexivity|]. intros H.
  unfold hyphenFree in H. simpl in H. apply andb_true_iff in H as [Hc Hr].
  apply toLowerCase_hyphenFree in Hr. unfold hyphenFree in *.
  unfold PascalCase.pascalCaseTransform.
  destruct ((0 <? index)%nat && PascalCase.isDigit c).
  - cbn [forallChars]. now rewrite Hc, Hr.
  - cbn [forallChars]. now rewrite toUpper_notHyphen, Hr.
Qed.

Lemma pascalCase_hyphenFree (input : string) :
  hyphenFree (PascalCase.pascalCase input) = true.
Proof.
  unfold PascalCase.pascalCase, PascalCase.noCase, PascalCase.mapi, hyphenFree.
  apply forallChars_join; [reflexivity|].
  apply Forall_mapi_from
    with (P := fun part => forallChars notHyphen part = true).
  - intros part n. apply pascalCaseTransform_hyphenFree.
  - apply forallChars_split, forallChars_slice, stripRun_hyphenFree.
Qed.

(** ** The logical-name fragment *)

(** The identifier is the parts of the domain in Pascal case, joined by
    ["Dot"]. *)
Lemma domainNameToPascalCase_join (domainName : string) :
  domainNameToPascalCase domainName
  = Js.join "Dot" (map PascalCase.pascalCase (Js.split "." domainName)).
Proof.
  apply domainNameToPascalCaseWith_join, pascalCase_hyphenFree.
Qed.

(** ** Domains made of simple labels *)

Lemma plain_facts (c : ascii) :
  plain c = true ->
  PascalCase.isUpper c = false
  /\ PascalCase.isAlnum c = true
  /\ Ascii.eqb c PascalCase.NUL = false
  /\ PascalCase.toLower c = c.
Proof.
  destruct c as [[] [] [] [] [] [] [] []]; intros H;
    solve [discriminate H | repeat split].
Qed.

Lemma isLower_facts (c : ascii) :
  PascalCase.isLower c = true ->
  plain c = true
  /\ PascalCase.toLower (PascalCase.toUpper c) = c
  /\ PascalCase.isUpper (PascalCase.toUpper c) = true.
Proof.
  destruct c as [[] [] [] [] [] [] [] []]; intros H;
    solve [discriminate H | repeat split].
Qed.

Lemma splitLowerUpper_plain (s : string) :
  forallChars plain s = true -> PascalCase.splitLowerUpper s = s.
Proof.
  induction s as [|a s IH]; [reflexivity|]. intros H.
  simpl in H. apply andb_true_iff in H as [_ Hs]. specialize (IH Hs).
  destruct s as [|b s]; [reflexivity|].
  simpl in Hs. apply andb_true_iff in Hs as [Hb _].
  apply plain_facts in Hb as (U & _).
  cbn [PascalCase.splitLowerUpper] in *.
  rewrite U, andb_false_r. now rewrite IH.
Qed.

Lemma splitUpperWord_plain (s : string) :
  forallChars plain s = true -> PascalCase.splitUpperWord s = s.
Proof.
  induction s as [|a s IH]; [reflexivity|]. intros H.
  simpl in H. apply andb_true_iff in H as [Ha Hs]. specialize (IH Hs).
  apply plain_facts in Ha as (U & _).
  destruct s as [|b [|c s]]; cbn [PascalCase.splitUpperWord] in *;
    try rewrite U; cbn [andb]; now rewrite ?IH.
Qed.

Lemma stripRun_plain (inRun : bool) (s : string) :
  forallChars plain s = true -> PascalCase.stripRun inRun s = s.
Proof.
  revert inRun. induction s as [|a s IH]; intros inRun H; [reflexivity|].
  simpl in H. apply andb_true_iff in H as [Ha Hs].
  apply plain_facts in Ha as (_ & A & _).
  simpl. now rewrite A, IH.
Qed.

Lemma leadingNuls_plain (s : string) :
  forallChars plain s = true -> PascalCase.leadingNuls s = 0.
Proof.
  destruct s as [|a s]; [reflexivity|]. intros H.
  simpl in H. apply andb_true_iff in H as [Ha _].
  apply plain_facts in Ha as (_ & _ & N & _).
  simpl. now rewrite N.
Qed.

Lemma trailingNuls_plain (s : string) :
  forallChars plain s = true -> PascalCase.trailingNuls s = 0.
Proof.
  induction s as [|a s IH]; [reflexivity|]. intros H.
  simpl in H. apply andb_true_iff in H as [Ha Hs].
  apply plain_facts in Ha as (_ & _ & N & _).
  simpl. now rewrite IH, N, andb_false_r.
Qed.

Lemma split_plain (s : string) :
  forallChars plain s = true -> Js.split PascalCase.NUL s = [s].
Proof.
  induction s as [|a s IH]; [reflexivity|]. intros H.
  simpl in H. apply andb_true_iff in H as [Ha Hs].
  apply plain_facts in Ha as (_ & _ & N & _).
  simpl. now rewrite N, IH.
Qed.

Lemma toLowerCase_plain (s : string) :
  forallChars plain s = true -> PascalCase.toLowerCase s = s.
Proof.
  unfold PascalCase.toLowerCase.
  induction s as [|a s IH]; [reflexivity|]. intros H.
  simpl in H. apply andb_true_iff in H as [Ha Hs].
  apply plain_facts in Ha as (_ & _ & _ & L).
  simpl. now rewrite L, IH.
Qed.

Lemma slice_whole (s : string) :
  Js.slice s 0 (Z.of_nat (String.length s)) = s.
Proof.
  rewrite <- (append_empty_r s) at 1. apply slice_prefix.
Qed.

(** [pascalCase] turns the first letter of a simple label to upper case and
    keeps the rest. *)
Lemma pascalCase_simpleLabel (c : ascii) (rest : string) :
  simpleLabel (String c rest) = true ->
  PascalCase.pascalCase (String c rest)
  = String (PascalCase.toUpper c) rest.
Proof.
  intros H. simpl in H. apply andb_true_iff in H as [Hc Hr].
  assert (P : forallChars plain (String c rest) = true).
  { simpl. apply isLower_facts in Hc as (Hc & _). now rewrite Hc. }
  unfold PascalCase.pascalCase, PascalCase.noCase.
  rewrite splitLowerUpper_plain, splitUpperWord_plain, stripRun_plain by
    assumption.
  rewrite leadingNuls_plain, trailingNuls_plain, Nat.sub_0_r by assumption.
  rewrite slice_whole, split_plain by assumption.
  cbn [PascalCase.mapi PascalCase.mapi_from Js.join
       PascalCase.pascalCaseTransform Nat.ltb Nat.leb andb].
  now rewrite toLowerCase_plain.
Qed.

Lemma join_split (sep : ascii) (s : string) :
  Js.join (String sep "") (Js.split sep s) = s.
Proof.
  induction s as [|c s IH]; [reflexivity|].
  pose proof (split_not_nil sep s) as N. simpl.
  destruct (Ascii.eqb_spec c sep) as [->|_];
    destruct (Js.split sep s) as [|p ps]; try congruence.
  - change (Js.join (String sep "") ("" :: p :: ps))
      with (String sep (Js.join (String sep "") (p :: ps))).
    now rewrite IH.
  - destruct ps as [|q ps].
    + simpl in *. now rewrite IH.
    + change (Js.join (String sep "") (String c p :: q :: ps))
        with (String c (p ++ String sep "" ++ Js.join (String sep "") (q :: ps))).
      now rewrite <- IH.
Qed.

(** Where the first upper-case letter of a string is. *)
Lemma first_upper (r1 r2 t1 t2 : string) (u : ascii) :
  PascalCase.isUpper u = true ->
  forallChars plain r1 = true -> forallChars plain r2 = true ->
  r1 ++ String u t1 = r2 ++ String u t2 -> r1 = r2 /\ t1 = t2.
Proof.
  intros U. revert r2.
  induction r1 as [|a r1 IH]; intros [|b r2] H1 H2 E; simpl in *.
  - injection E as E. auto.
  - injection E as <- _. apply andb_true_iff in H2 as [H2 _].
    apply plain_facts in H2 as (N & _). congruence.
  - injection E as -> _. apply andb_true_iff in H1 as [H1 _].
    apply plain_facts in H1 as (N & _). congruence.
  - injection E as <- E.
    apply andb_true_iff in H1 as [_ H1]. apply andb_true_iff in H2 as [_ H2].
    destruct (IH r2 H1 H2 E) as [-> ->]. auto.
Qed.

Lemma dottedParts_simple_inj (l1 l2 : list string) :
  forallb simpleLabel l1 = true -> forallb simpleLabel l2 = true ->
  dottedParts PascalCase.pascalCase l1 = dottedParts PascalCase.pascalCase l2 ->
  l1 = l2.
Proof.
  revert l2. induction l1 as [|p1 l1 IH]; intros [|p2 l2] H1 H2 E.
  - reflexivity.
  - rewrite dottedParts_cons in E. simpl in H2.
    apply andb_true_iff in H2 as [H2 _].
    destruct p2 as [|c2 r2]; [discriminate H2|].
    rewrite pascalCase_simpleLabel in E by assumption. discriminate E.
  - rewrite dottedParts_cons in E. simpl in H1.
    apply andb_true_iff in H1 as [H1 _].
    destruct p1 as [|c1 r1]; [discriminate H1|].
    rewrite pascalCase_simpleLabel in E by assumption. discriminate E.
  - rewrite !dottedParts_cons in E. simpl in H1, H2.
    apply andb_true_iff in H1 as [P1 H1]. apply andb_true_iff in H2 as [P2 H2].
    destruct p1 as [|c1 r1]; [discriminate P1|].
    destruct p2 as [|c2 r2]; [discriminate P2|].
    rewrite !pascalCase_simpleLabel in E by assumption.
    simpl in P1, P2.
    apply andb_true_iff in P1 as [C1 R1]. apply andb_true_iff in P2 as [C2 R2].
    change (String ?c ?r ++ ?t) with (String c (r ++ t)) in E.
    injection E as EC E.
    change ("Dot" ++ ?t) with (String "D" ("ot" ++ t)) in E.
    apply first_upper in E as [-> E]; [|reflexivity|assumption|assumption].
    injection E as E. apply IH in E; [|assumption|assumption].
    apply isLower_facts in C1 as (_ & L1 & _).
    apply isLower_facts in C2 as (_ & L2 & _).
    rewrite <- L1, <- L2, EC, E. reflexivity.
Qed.

Lemma domainNameToPascalCase_simple_inj (d1 d2 : string) :
  simpleDomain d1 = true -> simpleDomain d2 = true ->
  domainNameToPascalCase d1 = domainNameToPascalCase d2 -> d1 = d2.
Proof.
  unfold simpleDomain. intros H1 H2 E.
  rewrite !domainNameToPascalCase_join in E.
  apply (f_equal (fun s => s ++ "Dot")) in E.
  rewrite <- !dottedParts_join in E by apply split_not_nil.
  apply dottedParts_simple_inj in E; [|assumption|assumption].
  rewrite <- (join_split "." d1), <- (join_split "." d2), E. reflexivity.
Qed.

(** C9: [domainNameToPascalCase "example.com"] is ["ExampleDotCom"]: the
    parts ["example"] and ["com"] are capitalized, ["Dot"] follows each, and
    the last ["Dot"] is dropped; for every domain the result is the
    capitalized parts joined by ["Dot"].  The value is the same with any
    [pascalCase] that turns ["example"] into ["Example"] and ["com"] into
    ["Com"]. *)
Theorem example_com_identifier :
  Js.split "." "example.com" = ["example"; "com"]
  /\ map PascalCase.pascalCase ["example"; "com"] = ["Example"; "Com"]
  /\ dottedParts PascalCase.pascalCase ["example"; "com"] = "ExampleDotComDot"
  /\ domainNameToPascalCase "example.com" = "ExampleDotCom"
  /\ (forall domainName,
        domainNameToPascalCase domainName
        = Js.join "Dot"
            (map PascalCase.pascalCase (Js.split "." domainName)))
  /\ (forall pascalCase : string -> string,
        pascalCase "example" = "Example" -> pascalCase "com" = "Com" ->
        domainNameToPascalCaseWith pascalCase "example.com" = "ExampleDotCom").
Proof.
  do 4 (split; [vm_compute; reflexivity|]).
  split; [apply domainNameToPascalCase_join|].
  intros pascalCase E C. unfold domainNameToPascalCaseWith.
  change (Js.split "." "example.com") with ["example"; "com"].
  rewrite !dottedParts_cons, E, C. vm_compute. reflexivity.
Qed.

(** C7 (as stated, refuted): the domain ["my-cool-app.example.com"] has two
    hyphens and its identifier has none, so the hyphen after the first one
    is removed too; and for ["my-app.example.com"] the string that the
    replacement works on has no hyphen, so the replacement removes none. *)
Lemma later_hyphens_removed_counterexample :
  countChar "-" "my-cool-app.example.com" = 2
  /\ domainNameToPascalCase "my-cool-app.example.com"
     = "MyCoolAppDotExampleDotCom"
  /\ countChar "-" (domainNameToPascalCase "my-cool-app.example.com")
     <> countChar "-" "my-cool-app.example.com" - 1
  /\ dottedParts PascalCase.pascalCase (Js.split "." "my-app.example.com")
     = "MyAppDotExampleDotComDot"
  /\ Js.replace "-" "" "MyAppDotExampleDotComDot" = "MyAppDotExampleDotComDot".
Proof.
  do 2 (split; [vm_compute; reflexivity|]).
  split; [vm_compute; discriminate|].
  split; vm_compute; reflexivity.
Qed.

(** C7 (amended): the replacement removes the first hyphen of a string and
    keeps what follows it, but [pascalCase] has removed every hyphen of
    every part before: the string that the replacement works on has no
    hyphen and stays as it is, the identifier of a domain has no hyphen, and
    the identifier of ["my-app.example.com"] is ["MyAppDotExampleDotCom"]. *)
Theorem hyphens_removed_by_pascalCase :
  (forall s t,
      hyphenFree s = true -> Js.replace "-" "" (s ++ String "-" t) = s ++ t)
  /\ (forall domainName,
        hyphenFree
          (dottedParts PascalCase.pascalCase (Js.split "." domainName)) = true
        /\ Js.replace "-" ""
             (dottedParts PascalCase.pascalCase (Js.split "." domainName))
           = dottedParts PascalCase.pascalCase (Js.split "." domainName))
  /\ (forall domainName,
        hyphenFree (domainNameToPascalCase domainName) = true)
  /\ domainNameToPascalCase "my-app.example.com" = "MyAppDotExampleDotCom".
Proof.
  split; [exact replace_first_hyphen|].
  assert (H : forall parts,
             hyphenFree (dottedParts PascalCase.pascalCase parts) = true)
    by (intros parts; apply dottedParts_hyphenFree, pascalCase_hyphenFree).
  split; [intros d; split; [apply H | apply replace_hyphenFree, H]|].
  split; [|vm_compute; reflexivity].
  intros d. specialize (H (Js.split "." d)).
  rewrite dottedParts_join in H by apply split_not_nil.
  rewrite <- domainNameToPascalCase_join in H.
  unfold hyphenFree in *. rewrite forallChars_append in H.
  now apply andb_true_iff in H as [H _].
Qed.

(** C8 (as stated, refuted): the domains ["a-dot-b.com"] and ["a.b.com"]
    differ and have the same identifier, and so do ["a--b.com"] and
    ["a-b.com"]. *)
Lemma identifier_collision_counterexample :
  "a-dot-b.com" <> "a.b.com"
  /\ domainNameToPascalCase "a-dot-b.com" = domainNameToPascalCase "a.b.com"
  /\ domainNameToPascalCase "a.b.com" = "ADotBDotCom"
  /\ "a--b.com" <> "a-b.com"
  /\ domainNameToPascalCase "a--b.com" = domainNameToPascalCase "a-b.com".
Proof.
  split; [discriminate|]. do 2 (split; [vm_compute; reflexivity|]).
  split; [discriminate | vm_compute; reflexivity].
Qed.

(** C8 (amended): two distinct domains whose labels are made of lower-case
    letters and digits and start with a letter have distinct identifiers. *)
Theorem simple_domains_do_not_collide (d1 d2 : string) :
  simpleDomain d1 = true -> simpleDomain d2 = true -> d1 <> d2 ->
  domainNameToPascalCase d1 <> domainNameToPascalCase d2.
Proof.
  intros H1 H2 N E. apply N.
  now apply domainNameToPascalCase_simple_inj.
Qed.

Lemma simple_domains_do_not_collide_witness :
  domainNameToPascalCase "shop.example.com"
  <> domainNameToPascalCase "shop.example.org".
Proof.
  apply (simple_domains_do_not_collide "shop.example.com" "shop.example.org");
    [reflexivity | reflexivity | discriminate].
Defined.

(** ** The constructs of the constructor *)

Lemma drop_append (s t : string) : Js.drop (String.length s) (s ++ t) = t.
Proof.
  induction s as [|c s IH]; simpl; [now destruct t | exact IH].
Qed.

Lemma endsWith_append (s suffix : string) :
  Js.endsWith suffix (s ++ suffix) = true.
Proof.
  unfold Js.endsWith. rewrite length_append.
  replace (String.length s + String.length suffix - String.length suffix)
    with (String.length s) by lia.
  rewrite drop_append. apply String.eqb_refl.
Qed.



Lemma ret_adds {A : Type} (a : A) : adds (ret a).
Proof.
  intros sc. exists []. simpl. now rewrite List.app_nil_r.
Qed.

Lemma addChild_adds (id : string) (r : Resource) : adds (addChild id r).
Proof.
  intros sc. unfold addChild. destruct (hasChild id sc); simpl.
  - exists []. now rewrite List.app_nil_r.
  - now exists [(id, r)].
Qed.

Lemma bind_adds {A B : Type} (m : Build A) (k : A -> Build B) :
  adds m -> (forall a, adds (k a)) -> adds (bind m k).
Proof.
  intros Hm Hk sc. unfold bind.
  destruct (Hm sc) as [more1 E1].
  destruct (m sc) as [sc1 [a|]]; simpl in E1; subst sc1.
  - destruct (Hk a (sc ++ more1)%list) as [more2 E2].
    exists (more1 ++ more2)%list. now rewrite E2, List.app_assoc.
  - now exists more1.
Qed.

Lemma forEach_adds {A : Type} (f : A -> Build unit) (l : list A) :
  (forall x, adds (f x)) -> adds (forEach f l).
Proof.
  intros Hf. induction l as [|x l IH]; simpl.
  - apply ret_adds.
  - apply bind_adds; auto.
Qed.

Create HintDb adds.
#[local] Hint Resolve ret_adds addChild_adds bind_adds forEach_adds : adds.


Lemma addChild_fresh (id : string) (r : Resource) (sc : Scope) :
  hasChild id sc = false ->
  addChild id r sc = ((sc ++ [(id, r)])%list, Some tt).
Proof.
  intros H. unfold addChild. now rewrite H.
Qed.

Lemma bind_step {A B : Type} (m : Build A) (k : A -> Build B)
    (sc sc1 : Scope) (a : A) :
  m sc = (sc1, Some a) -> bind m k sc = k a sc1.
Proof.
  intros H. unfold bind. now rewrite H.
Qed.



(** ** A repeated certificate domain stops the constructor *)

Lemma hasChild_app (id : string) (sc more : Scope) :
  hasChild id (sc ++ more)%list = hasChild id sc || hasChild id more.
Proof.
  apply List.existsb_app.
Qed.

Lemma adds_hasChild {A : Type} (m : Build A) (id : string) (sc : Scope) :
  adds m -> hasChild id sc = true -> hasChild id (fst (m sc)) = true.
Proof.
  intros Hm H. destruct (Hm sc) as [more ->].
  now rewrite hasChild_app, H.
Qed.

Lemma bind_returns {A B : Type} (m : Build A) (k : A -> Build B)
    (sc : Scope) (b : B) :
  snd (bind m k sc) = Some b ->
  exists a, snd (m sc) = Some a /\ snd (k a (fst (m sc))) = Some b.
Proof.
  unfold bind. destruct (m sc) as [sc1 [a|]]; simpl; [eauto | discriminate].
Qed.

Lemma addChild_returns (id : string) (r : Resource) (sc : Scope) :
  snd (addChild id r sc) = Some tt ->
  hasChild id sc = false /\ hasChild id (fst (addChild id r sc)) = true.
Proof.
  unfold addChild. destruct (hasChild id sc) eqn:H; simpl;
    [discriminate|]. intros _. split; [reflexivity|].
  rewrite hasChild_app. simpl. now rewrite String.eqb_refl, orb_true_r.
Qed.

Section ForEach.

Context {A : Type} (key : A -> string) (f : A -> Build unit).

Hypothesis f_adds : forall x, adds (f x).
Hypothesis f_new : forall x sc,
  snd (f x sc) = Some tt ->
  hasChild (key x) sc = false /\ hasChild (key x) (fst (f x sc)) = true.

Lemma forEach_known (l : list A) (x : A) (sc : Scope) :
  In x l -> hasChild (key x) sc = true -> snd (forEach f l sc) = None.
Proof.
  revert sc. induction l as [|a l IH]; intros sc I H; [destruct I|].
  destruct I as [->|I]; simpl.
  - unfold bind. destruct (f x sc) as [sc1 [[]|]] eqn:E; [|reflexivity].
    destruct (f_new x sc) as [N _]; [now rewrite E | congruence].
  - unfold bind. destruct (f a sc) as [sc1 [[]|]] eqn:E; [|reflexivity].
    apply IH; [assumption|].
    replace sc1 with (fst (f a sc)) by now rewrite E.
    now apply adds_hasChild.
Qed.

Lemma forEach_returns (l : list A) (sc : Scope) :
  snd (forEach f l sc) = Some tt -> NoDup l.
Proof.
  revert sc. induction l as [|a l IH]; intros sc H; [constructor|].
  simpl in H. apply bind_returns in H as ([] & Ha & H).
  constructor; [|now apply IH in H].
  intros I. apply f_new in Ha as [_ Ha].
  rewrite (forEach_known l a _ I Ha) in H. discriminate.
Qed.

End ForEach.



(** When the constructor returns, no certificate domain is repeated: a
    second record for a domain would have the id of the first one. *)
Lemma completes_NoDup (name : string) (props : X8WebSiteProps) :
  completes name props = true -> NoDup (getCertificateDomains props).
Proof.
  unfold completes, X8Website.
  destruct (snd _) as [[]|] eqn:H; [intros _ | discriminate].
  do 7 (apply bind_returns in H as ([] & _ & H)).
  apply bind_returns in H as ([] & H & _).
  revert H.
  apply forEach_returns
    with (key := fun certName =>
                   domainNameToPascalCase certName ++ "WwwAliasRecord").
  - auto with adds.
  - intros certName sc H. apply bind_returns in H as ([] & H & _).
    apply addChild_returns in H as [N H]. split; [exact N|].
    unfold bind. destruct (addChild _ _ sc) as [sc1 [[]|]]; simpl in *;
      [|exact H].
    now apply adds_hasChild; auto with adds.
Qed.



(** In the model, a request that returns and one that does not. *)
Lemma completes_certificate_sans_example :
  completes "Site" shopRequest = true
  /\ completes "Site" repeatedAdditionalRequest = false.
Proof.
  split; vm_compute; reflexivity.
Qed.

(** * Further properties of the domain computations *)

Lemma endsWith_suffix (s t u : string) :
  s = t ++ u -> Js.endsWith u s = true.
Proof.
  intros ->. apply endsWith_append.
Qed.

(** X1: the site domain is ["www."] followed by the first certificate
    domain, whatever the sub-domain is. *)
Theorem site_domain_is_www_primary (props : X8WebSiteProps) :
  getSiteDomain props = "www." ++ List.hd "" (getCertificateDomains props).
Proof.
  unfold getSiteDomain, getCertificateDomains.
  destruct (Js.truthy _ && _), (waAdditionalDomainNames props); reflexivity.
Qed.

(** X2: the site domain starts with ["www."] and ends with a dot and the
    domain name, and the first certificate domain ends with the domain name:
    both are names under [waDomainName]. *)
Theorem site_domain_under_domain_name (props : X8WebSiteProps) :
  Js.startsWith "www." (getSiteDomain props) = true
  /\ Js.endsWith ("." ++ waDomainName props) (getSiteDomain props) = true
  /\ Js.endsWith (waDomainName props)
       (List.hd "" (getCertificateDomains props)) = true.
Proof.
  split; [|split].
  - unfold getSiteDomain. destruct (Js.truthy _ && _); reflexivity.
  - unfold getSiteDomain, wwwSubDomain.
    destruct (Js.truthy _ && _).
    + apply endsWith_suffix with ("www." ++ interpolate (waSubDomain props)).
      now rewrite !append_assoc.
    + now apply endsWith_suffix with "www".
  - unfold getCertificateDomains.
    destruct (Js.truthy _ && _), (waAdditionalDomainNames props);
      cbn [Js.concat List.app List.hd].
    + apply endsWith_suffix with (interpolate (waSubDomain props) ++ ".").
      now rewrite !append_assoc.
    + apply endsWith_suffix with (interpolate (waSubDomain props) ++ ".").
      now rewrite !append_assoc.
    + now apply endsWith_suffix with "".
    + now apply endsWith_suffix with "".
Qed.

(** * Further properties of the logical-name fragment *)

Lemma replace_first_hyphen_append (s t : string) :
  hyphenFree s = false ->
  Js.replace "-" "" (s ++ t) = Js.replace "-" "" s ++ t.
Proof.
  unfold hyphenFree. induction s as [|c s IH]; [discriminate|]. intros H.
  change (String c s ++ t) with (String c (s ++ t)).
  unfold Js.replace; fold Js.replace. cbn [Js.startsWith].
  destruct (Ascii.eqb_spec "-" c) as [<-|N]; [reflexivity|].
  cbn [andb]. simpl in H. unfold notHyphen at 1 in H.
  destruct (Ascii.eqb_spec c "-") as [->|_]; [congruence|].
  simpl in H. now rewrite IH.
Qed.

Lemma replace_first_hyphen_length (s : string) :
  hyphenFree s = false ->
  S (String.length (Js.replace "-" "" s)) = String.length s.
Proof.
  unfold hyphenFree. induction s as [|c s IH]; [discriminate|]. intros H.
  unfold Js.replace; fold Js.replace. cbn [Js.startsWith].
  destruct (Ascii.eqb_spec "-" c) as [<-|N]; [reflexivity|].
  cbn [andb]. simpl in H. unfold notHyphen at 1 in H.
  destruct (Ascii.eqb_spec c "-") as [->|_]; [congruence|].
  simpl in H. simpl. now rewrite IH.
Qed.

(** X3: what [domainNameToPascalCase] returns, for any [pascalCase]: when
    the parts in Pascal case hold no hyphen, it is the parts joined by
    ["Dot"]; when they hold one, the first hyphen is removed and the result
    ends with the ["D"] of the last ["Dot"], because the place of the last
    ["Dot"] is taken before the hyphen is removed. *)
Theorem identifier_for_any_pascalCase
    (pascalCase : string -> string) (domainName : string) :
  domainNameToPascalCaseWith pascalCase domainName
  = if hyphenFree (Js.join "Dot" (map pascalCase (Js.split "." domainName)))
    then Js.join "Dot" (map pascalCase (Js.split "." domainName))
    else Js.replace "-" ""
           (Js.join "Dot" (map pascalCase (Js.split "." domainName))) ++ "D".
Proof.
  unfold domainNameToPascalCaseWith.
  rewrite dottedParts_join by apply split_not_nil.
  set (body := Js.join "Dot" (map pascalCase (Js.split "." domainName))).
  rewrite lastIndexOf_suffix.
  destruct (hyphenFree body) eqn:H.
  - rewrite replace_hyphenFree; [apply slice_prefix|].
    unfold hyphenFree in *. now rewrite forallChars_append, H.
  - rewrite replace_first_hyphen_append by assumption.
    replace (String.length body)
      with (String.length (Js.replace "-" "" body ++ "D"))
      by (rewrite length_append, <- (replace_first_hyphen_length body H);
          simpl; lia).
    change "Dot" with ("D" ++ "ot"). rewrite <- append_assoc.
    apply slice_prefix.
Qed.

Lemma forallChars_impl (P Q : ascii -> bool) (s : string) :
  (forall c, P c = true -> Q c = true) ->
  forallChars P s = true -> forallChars Q s = true.
Proof.
  intros PQ. induction s as [|c s IH]; simpl; [reflexivity|]. intros H.
  apply andb_true_iff in H as [Hc Hs]. now rewrite PQ, IH.
Qed.

(** The parts that [split] cuts hold no separator. *)
Lemma split_without_separator (P : ascii -> bool) (sep : ascii) (s : string) :
  forallChars (fun c => P c || Ascii.eqb c sep) s = true ->
  Forall (fun part => forallChars P part = true) (Js.split sep s).
Proof.
  induction s as [|c s IH]; simpl; intros H.
  - repeat constructor.
  - apply andb_true_iff in H as [Hc Hs]. specialize (IH Hs).
    destruct (Ascii.eqb c sep) eqn:E.
    + constructor; [reflexivity | exact IH].
    + rewrite orb_false_r in Hc. destruct (Js.split sep s) as [|p ps].
      * repeat constructor. simpl. now rewrite Hc.
      * inversion IH; subst. constructor; [|assumption].
        simpl. now rewrite Hc.
Qed.

Lemma stripRun_alnum (inRun : bool) (s : string) :
  forallChars (fun c => PascalCase.isAlnum c || Ascii.eqb c PascalCase.NUL)
    (PascalCase.stripRun inRun s) = true.
Proof.
  revert inRun. induction s as [|c s IH]; intros inRun; simpl; [reflexivity|].
  destruct (PascalCase.isAlnum c) eqn:A.
  - simpl. now rewrite A, IH.
  - destruct inRun; simpl; auto.
Qed.

Lemma alnum_case (c : ascii) :
  PascalCase.isAlnum c = true ->
  PascalCase.isAlnum (PascalCase.toUpper c) = true
  /\ PascalCase.isAlnum (PascalCase.toLower c) = true.
Proof.
  destruct c as [[] [] [] [] [] [] [] []]; intros H;
    solve [discriminate H | split; reflexivity].
Qed.

Lemma pascalCaseTransform_identifier (input : string) (index : nat) :
  forallChars PascalCase.isAlnum input = true ->
  forallChars identifierChar (PascalCase.pascalCaseTransform input index)
  = true.
Proof.
  destruct input as [|c rest]; [reflexivity|]. intros H.
  simpl in H. apply andb_true_iff in H as [Hc Hr].
  assert (L : forallChars identifierChar (PascalCase.toLowerCase rest) = true).
  { clear Hc. unfold PascalCase.toLowerCase.
    induction rest as [|a rest IH]; [reflexivity|].
    simpl in Hr. apply andb_true_iff in Hr as [Ha Hr].
    apply alnum_case in Ha as [_ Ha]. simpl. unfold identifierChar at 1.
    now rewrite Ha, IH. }
  unfold PascalCase.pascalCaseTransform.
  destruct ((0 <? index)%nat && PascalCase.isDigit c); cbn [forallChars].
  - rewrite L. unfold identifierChar at 2. rewrite Hc. reflexivity.
  - rewrite L. apply alnum_case in Hc as [Hc _].
    unfold identifierChar. now rewrite Hc.
Qed.

Lemma pascalCase_identifier (input : string) :
  forallChars identifierChar (PascalCase.pascalCase input) = true.
Proof.
  unfold PascalCase.pascalCase, PascalCase.noCase, PascalCase.mapi.
  apply forallChars_join; [reflexivity|].
  apply Forall_mapi_from
    with (P := fun part => forallChars PascalCase.isAlnum part = true).
  - intros part n. apply pascalCaseTransform_identifier.
  - apply split_without_separator, forallChars_slice, stripRun_alnum.
Qed.

(** X4: the identifier of a domain is made of ASCII letters, digits and
    underscores only: no dot, hyphen, slash or space of the domain name
    gets into the ids of the constructs. *)
Theorem identifier_characters (domainName : string) :
  forallChars identifierChar (domainNameToPascalCase domainName) = true.
Proof.
  rewrite domainNameToPascalCase_join.
  apply forallChars_join; [reflexivity|].
  apply Forall_forall. intros part I. apply in_map_iff in I as (p & <- & _).
  apply pascalCase_identifier.
Qed.

(** X5: for a domain whose labels are made of lower-case letters and digits
    and start with a letter, the identifier is the labels, each with its
    first letter in upper case, joined by ["Dot"]. *)
Theorem simple_domain_identifier (domainName : string) :
  simpleDomain domainName = true ->
  domainNameToPascalCase domainName
  = Js.join "Dot" (map capitalize (Js.split "." domainName)).
Proof.
  unfold simpleDomain. intros H. rewrite domainNameToPascalCase_join.
  f_equal. apply map_ext_in. intros label I.
  rewrite forallb_forall in H. specialize (H label I).
  destruct label as [|c rest]; [discriminate H|].
  now apply pascalCase_simpleLabel.
Qed.

Lemma simple_domain_identifier_witness :
  domainNameToPascalCase "shop1.example.com"
  = Js.join "Dot" (map capitalize (Js.split "." "shop1.example.com")).
Proof.
  apply (simple_domain_identifier "shop1.example.com"). reflexivity.
Defined.

(** * Further properties of the constructor *)

Lemma reverseOnto_append (s t acc : string) :
  reverseOnto (s ++ t) acc = reverseOnto t (reverseOnto s acc).
Proof.
  revert acc. induction s as [|c s IH]; intros acc; simpl; auto.
Qed.

Lemma reverseOnto_acc (s acc : string) :
  reverseOnto s acc = reverseOnto s "" ++ acc.
Proof.
  revert acc. induction s as [|c s IH]; intros acc; simpl; [reflexivity|].
  rewrite IH, (IH (String c "")), append_assoc. reflexivity.
Qed.

Lemma reverse_append (s t : string) :
  reverse (s ++ t) = reverse t ++ reverse s.
Proof.
  unfold reverse. now rewrite reverseOnto_append, reverseOnto_acc.
Qed.

Lemma differEarly_append (s t s' t' : string) :
  differEarly s t = true -> s ++ s' <> t ++ t'.
Proof.
  revert t. induction s as [|a s IH]; intros [|b t]; simpl;
    try discriminate.
  intros H E. injection E as -> E.
  rewrite Ascii.eqb_refl in H. simpl in H. now apply (IH t).
Qed.

(** Strings with endings that differ are different. *)
Lemma endDifferently_eqb (s u t v : string) :
  endDifferently u v = true -> String.eqb (s ++ u) (t ++ v) = false.
Proof.
  unfold endDifferently. intros H. apply String.eqb_neq. intros E.
  apply (f_equal reverse) in E. rewrite !reverse_append in E.
  now apply differEarly_append in E.
Qed.

Ltac ids_differ :=
  lazymatch goal with
  | |- String.eqb (?s ++ ?u) (?t ++ ?v) = false =>
      apply (endDifferently_eqb s u t v); reflexivity
  | |- String.eqb (?s ++ ?u) ?v = false =>
      apply (endDifferently_eqb s u "" v); reflexivity
  | |- String.eqb ?u (?t ++ ?v) = false =>
      apply (endDifferently_eqb "" u t v); reflexivity
  | |- String.eqb ?u ?v = false => reflexivity
  end.

Ltac ids_compare :=
  repeat match goal with
    | |- context [String.eqb ?a ?a] => rewrite (String.eqb_refl a)
    | |- context [String.eqb ?a ?b] =>
        let H := fresh in
        assert (H : String.eqb a b = false) by ids_differ;
        rewrite H; clear H
    end.

Ltac add_child :=
  erewrite bind_step;
  [| apply addChild_fresh; unfold hasChild; cbn [existsb fst List.app];
     ids_compare; reflexivity].

Lemma lookupChild_app (id : string) (sc more : Scope) (r : Resource) :
  lookupChild id sc = Some r -> lookupChild id (sc ++ more)%list = Some r.
Proof.
  induction sc as [|[i x] sc IH]; simpl; [discriminate|].
  destruct (String.eqb i id); auto.
Qed.

Ltac find_child :=
  apply lookupChild_app; unfold firstChildren;
  match goal with
  | |- context [waOriginAccessIdentity ?p] =>
      destruct (waOriginAccessIdentity p)
  end;
  cbn [lookupChild List.app]; ids_compare; reflexivity.

Lemma append_inv_tail (s t u : string) : s ++ u = t ++ u -> s = t.
Proof.
  revert t. induction s as [|a s IH]; intros [|b t] E; simpl in E.
  - reflexivity.
  - apply (f_equal String.length) in E. simpl in E.
    rewrite length_append in E. lia.
  - apply (f_equal String.length) in E. simpl in E.
    rewrite length_append in E. lia.
  - injection E as -> E. f_equal. now apply IH.
Qed.

Lemma eqb_append_tail (s t u : string) :
  String.eqb (s ++ u) (t ++ u) = String.eqb s t.
Proof.
  destruct (String.eqb_spec s t) as [->|N].
  - apply String.eqb_refl.
  - apply String.eqb_neq. intros E. now apply append_inv_tail in E.
Qed.

Section ForEachKeys.

Context {A : Type} (key : A -> string) (f : A -> Build unit).

Hypothesis f_adds : forall x, adds (f x).
Hypothesis f_new : forall x sc,
  snd (f x sc) = Some tt ->
  hasChild (key x) sc = false /\ hasChild (key x) (fst (f x sc)) = true.

Lemma forEach_known_key (l : list A) (k : string) (sc : Scope) :
  In k (map key l) -> hasChild k sc = true -> snd (forEach f l sc) = None.
Proof.
  revert sc. induction l as [|a l IH]; intros sc I H; [destruct I|].
  simpl. unfold bind. destruct (f a sc) as [sc1 [[]|]] eqn:E; [|reflexivity].
  destruct I as [<-|I].
  - destruct (f_new a sc) as [N _]; [now rewrite E | congruence].
  - apply IH; [assumption|].
    replace sc1 with (fst (f a sc)) by now rewrite E.
    now apply adds_hasChild.
Qed.

Lemma forEach_returns_keys (l : list A) (sc : Scope) :
  snd (forEach f l sc) = Some tt -> NoDup (map key l).
Proof.
  revert sc. induction l as [|a l IH]; intros sc H; [constructor|].
  simpl in H. apply bind_returns in H as ([] & Ha & H).
  simpl. constructor; [|now apply IH in H].
  intros I. apply f_new in Ha as [_ Ha].
  rewrite (forEach_known_key l (key a) _ I Ha) in H. discriminate.
Qed.

End ForEachKeys.

(** The constructs of the certificate domains hold none of the ids that the
    constructor gives by itself. *)
Lemma hasChild_certificateChildren_other (id cf : string) (l : list string) :
  (forall s, String.eqb (s ++ "WwwAliasRecord") id = false) ->
  (forall s, String.eqb (s ++ "UrlOutput") id = false) ->
  hasChild id (flat_map (certificateChildren cf) l) = false.
Proof.
  intros W U. induction l as [|x l IH]; [reflexivity|].
  unfold hasChild in *. cbn [flat_map certificateChildren List.app existsb fst].
  now rewrite W, U, IH.
Qed.

Lemma hasChild_certificateChildren_record (s cf : string) (l : list string) :
  ~ In s (map domainNameToPascalCase l) ->
  hasChild (s ++ "WwwAliasRecord") (flat_map (certificateChildren cf) l)
  = false
  /\ hasChild (s ++ "UrlOutput") (flat_map (certificateChildren cf) l) = false.
Proof.
  induction l as [|x l IH]; intros N; [split; reflexivity|].
  simpl in N. destruct IH as [IH1 IH2]; [tauto|].
  assert (E : String.eqb (domainNameToPascalCase x) s = false)
    by (apply String.eqb_neq; tauto).
  unfold hasChild in *.
  cbn [flat_map certificateChildren List.app existsb fst].
  rewrite IH1, IH2, !eqb_append_tail, E. split; ids_compare; reflexivity.
Qed.

Lemma forEach_certificates (cf : string) (l : list string) (sc : Scope) :
  NoDup (map domainNameToPascalCase l) ->
  (forall s, In s (map domainNameToPascalCase l) ->
             hasChild (s ++ "WwwAliasRecord") sc = false
             /\ hasChild (s ++ "UrlOutput") sc = false) ->
  forEach
    (fun certName =>
       addChild (domainNameToPascalCase certName ++ "WwwAliasRecord")
         (ARecord certName (Route53RecordTarget cf)) ;;
       addChild (domainNameToPascalCase certName ++ "UrlOutput")
         (CfnOutput (Literal certName)))
    l sc
  = ((sc ++ flat_map (certificateChildren cf) l)%list, Some tt).
Proof.
  revert sc. induction l as [|x l IH]; intros sc N F.
  - simpl. unfold ret. now rewrite List.app_nil_r.
  - simpl in N. inversion N as [|? ? Nx Nl]; subst.
    destruct (F (domainNameToPascalCase x)) as [F1 F2]; [now left|].
    cbn [forEach].
    erewrite bind_step;
      [|erewrite bind_step; [|apply addChild_fresh; exact F1];
        apply addChild_fresh; rewrite hasChild_app, F2;
        unfold hasChild; cbn [existsb fst]; ids_compare; reflexivity].
    rewrite IH; [|assumption|].
    + cbn [flat_map certificateChildren].
      now rewrite <- !List.app_assoc.
    + intros s I. destruct (F s) as [G1 G2]; [now right|].
      assert (E : String.eqb (domainNameToPascalCase x) s = false)
        by (apply String.eqb_neq; intros H; subst s; contradiction).
      rewrite !hasChild_app, G1, G2. unfold hasChild. cbn [existsb fst].
      rewrite !eqb_append_tail, E. split; ids_compare; reflexivity.
Qed.

Ltac add_last_child :=
  erewrite bind_step;
  [| apply addChild_fresh; rewrite ?hasChild_app;
     rewrite hasChild_certificateChildren_other by (intros; ids_differ);
     unfold hasChild; cbn [existsb fst List.app]; ids_compare; reflexivity].

(** In the model, with certificate domains of distinct identifiers, every
    construct is created. *)
Lemma X8Website_allChildren (name : string) (props : X8WebSiteProps) :
  NoDup (map domainNameToPascalCase (getCertificateDomains props)) ->
  X8Website name props [] = (allChildren name props, Some tt).
Proof.
  intros N. unfold X8Website, allChildren, firstChildren, lastChildren.
  set (id := domainNameToPascalCase (waDomainName props)).
  add_child.
  destruct (waOriginAccessIdentity props) as [oai|].
  - erewrite bind_step by reflexivity.
    do 5 add_child.
    erewrite bind_step;
      [|apply forEach_certificates; [exact N|]; intros s _;
        unfold hasChild; cbn [existsb fst List.app]; split;
        ids_compare; reflexivity].
    do 3 add_last_child.
    unfold addChild. rewrite ?hasChild_app.
    rewrite hasChild_certificateChildren_other by (intros; ids_differ).
    unfold hasChild; cbn [existsb fst List.app]; ids_compare.
    cbn [orb]. rewrite <- !List.app_assoc. reflexivity.
  - do 6 add_child.
    erewrite bind_step;
      [|apply forEach_certificates; [exact N|]; intros s _;
        unfold hasChild; cbn [existsb fst List.app]; split;
        ids_compare; reflexivity].
    do 3 add_last_child.
    unfold addChild. rewrite ?hasChild_app.
    rewrite hasChild_certificateChildren_other by (intros; ids_differ).
    unfold hasChild; cbn [existsb fst List.app]; ids_compare.
    cbn [orb]. rewrite <- !List.app_assoc. reflexivity.
Qed.

Lemma completes_distinct_identifiers (name : string) (props : X8WebSiteProps) :
  completes name props = true ->
  NoDup (map domainNameToPascalCase (getCertificateDomains props)).
Proof.
  unfold completes, X8Website.
  destruct (snd _) as [[]|] eqn:H; [intros _ | discriminate].
  do 7 (apply bind_returns in H as ([] & _ & H)).
  apply bind_returns in H as ([] & H & _).
  apply forEach_returns_keys
    with (key := fun certName =>
                   domainNameToPascalCase certName ++ "WwwAliasRecord")
    in H.
  - rewrite <- (map_map domainNameToPascalCase
                  (fun s => s ++ "WwwAliasRecord")) in H.
    now apply NoDup_map_inv in H.
  - auto with adds.
  - intros certName sc R. apply bind_returns in R as ([] & R & _).
    apply addChild_returns in R as [N R]. split; [exact N|].
    unfold bind. destruct (addChild _ _ sc) as [sc1 [[]|]]; simpl in *;
      [|exact R].
    now apply adds_hasChild; auto with adds.
Qed.

(** X6: when the constructor returns, it has created the bucket, the
    certificate and the record of the distribution, all three named after
    the site domain, the distribution, which takes the certificate and
    accepts the distribution domains, and the deployment; absent properties
    give [index.html], [/error.html], no logging and the content of
    [build]. *)
Theorem constructor_constructs_on_return
    (name : string) (props : X8WebSiteProps) :
  completes name props = true ->
  (exists policyActions,
      lookupChild "WebsiteBucket" (built name props)
      = Some (WaBucket (getSiteDomain props) policyActions))
  /\ lookupChild (domainNameToPascalCase (waDomainName props) ++ "Cert")
       (built name props)
     = Some (DnsValidatedCertificate (getSiteDomain props)
               (domainNameToPascalCase (waDomainName props) ++ "Zone")
               (getCertificateDomains props))
  /\ lookupChild (domainNameToPascalCase (waDomainName props) ++ "Distribution")
       (built name props)
     = Some (Distribution
               (domainNameToPascalCase (waDomainName props) ++ "Cert")
               (orDefault (waEnableCloudFrontLogging props) false)
               (orDefault (waDefaultRootObject props) "index.html")
               (getDistributionDomains props)
               (orDefault (waErrorResponsePagePath props) "/error.html"))
  /\ lookupChild "DeployWithInvalidation" (built name props)
     = Some (BucketDeployment (orDefault (waPathToContent props) "build")
               ["/*"])
  /\ lookupChild (domainNameToPascalCase (waDomainName props) ++ "CfAliasRecord")
       (built name props)
     = Some (ARecord (getSiteDomain props)
               (CloudFrontTarget
                  (domainNameToPascalCase (waDomainName props)
                   ++ "Distribution"))).
Proof.
  intros H. apply completes_distinct_identifiers in H.
  unfold built. rewrite X8Website_allChildren by assumption.
  unfold allChildren. cbn [fst].
  split; [eexists|]; repeat split; find_child.
Qed.

Lemma constructor_constructs_on_return_witness :
  (exists policyActions,
      lookupChild "WebsiteBucket" (built "Site" shopRequest)
      = Some (WaBucket (getSiteDomain shopRequest) policyActions))
  /\ lookupChild (domainNameToPascalCase (waDomainName shopRequest) ++ "Cert")
       (built "Site" shopRequest)
     = Some (DnsValidatedCertificate (getSiteDomain shopRequest)
               (domainNameToPascalCase (waDomainName shopRequest) ++ "Zone")
               (getCertificateDomains shopRequest))
  /\ lookupChild
       (domainNameToPascalCase (waDomainName shopRequest) ++ "Distribution")
       (built "Site" shopRequest)
     = Some (Distribution
               (domainNameToPascalCase (waDomainName shopRequest) ++ "Cert")
               (orDefault (waEnableCloudFrontLogging shopRequest) false)
               (orDefault (waDefaultRootObject shopRequest) "index.html")
               (getDistributionDomains shopRequest)
               (orDefault (waErrorResponsePagePath shopRequest) "/error.html"))
  /\ lookupChild "DeployWithInvalidation" (built "Site" shopRequest)
     = Some (BucketDeployment (orDefault (waPathToContent shopRequest) "build")
               ["/*"])
  /\ lookupChild
       (domainNameToPascalCase (waDomainName shopRequest) ++ "CfAliasRecord")
       (built "Site" shopRequest)
     = Some (ARecord (getSiteDomain shopRequest)
               (CloudFrontTarget
                  (domainNameToPascalCase (waDomainName shopRequest)
                   ++ "Distribution"))).
Proof.
  apply (constructor_constructs_on_return "Site" shopRequest).
  vm_compute. reflexivity.
Defined.

(** X7: two certificate domains with the same identifier make the
    constructor throw, also when the domains differ: the record of the
    second one would have the id of the record of the first one. *)
Theorem constructor_throws_on_repeated_identifier
    (name : string) (props : X8WebSiteProps) (identifier : string) :
  1 < List.count_occ string_dec
        (map domainNameToPascalCase (getCertificateDomains props)) identifier ->
  completes name props = false.
Proof.
  intros H. destruct (completes name props) eqn:C; [|reflexivity].
  apply completes_distinct_identifiers in C.
  rewrite (NoDup_count_occ string_dec) in C. specialize (C identifier). lia.
Qed.

Lemma constructor_throws_on_repeated_identifier_witness :
  completes "Site" collidingRequest = false.
Proof.
  apply (constructor_throws_on_repeated_identifier "Site" collidingRequest
           "ADotBDotCom").
  vm_compute. lia.
Defined.

Lemma aliasRecords_app (sc more : Scope) :
  aliasRecords (sc ++ more)%list
  = (aliasRecords sc ++ aliasRecords more)%list.
Proof.
  induction sc as [|[i r] sc IH]; [reflexivity|].
  destruct r as [| | | | | |n [d|t]|]; simpl; now rewrite ?IH.
Qed.

Lemma literalOutputs_app (sc more : Scope) :
  literalOutputs (sc ++ more)%list
  = (literalOutputs sc ++ literalOutputs more)%list.
Proof.
  induction sc as [|[i r] sc IH]; [reflexivity|].
  destruct r as [| | | | | | |[v| | |]]; simpl; now rewrite ?IH.
Qed.

Lemma certificateChildren_read (cf : string) (l : list string) :
  aliasRecords (flat_map (certificateChildren cf) l)
  = map (fun certName => (certName, cf)) l
  /\ literalOutputs (flat_map (certificateChildren cf) l) = l.
Proof.
  induction l as [|x l [IH1 IH2]]; [split; reflexivity|].
  cbn [flat_map certificateChildren List.app aliasRecords literalOutputs map].
  now rewrite IH1, IH2.
Qed.

(** X8: when the constructor returns, it has created one record per
    certificate domain, in their order, each pointing at the record of the
    distribution, and its outputs with a computed value are the certificate
    domains, in their order, and then the URL of the site. *)
Theorem constructor_records_and_outputs
    (name : string) (props : X8WebSiteProps) :
  completes name props = true ->
  aliasRecords (built name props)
  = map (fun certName =>
           (certName,
            domainNameToPascalCase (waDomainName props) ++ "CfAliasRecord"))
      (getCertificateDomains props)
  /\ literalOutputs (built name props)
     = List.app (getCertificateDomains props)
         ["https://" ++ getSiteDomain props].
Proof.
  intros H. apply completes_distinct_identifiers in H.
  unfold built. rewrite X8Website_allChildren by assumption.
  unfold allChildren. cbn [fst].
  rewrite !aliasRecords_app, !literalOutputs_app.
  destruct (certificateChildren_read
              (domainNameToPascalCase (waDomainName props) ++ "CfAliasRecord")
              (getCertificateDomains props)) as [-> ->].
  unfold firstChildren, lastChildren.
  destruct (waOriginAccessIdentity props); cbn; rewrite List.app_nil_r;
    split; reflexivity.
Qed.

Lemma constructor_records_and_outputs_witness :
  aliasRecords (built "Site" shopRequest)
  = [("shop.example.com", "ExampleDotComCfAliasRecord");
     ("alt.example.com", "ExampleDotComCfAliasRecord")]
  /\ literalOutputs (built "Site" shopRequest)
     = ["shop.example.com"; "alt.example.com"; "https://www.shop.example.com"].
Proof.
  apply (constructor_records_and_outputs "Site" shopRequest).
  vm_compute. reflexivity.
Defined.

(** In the model, a request with two additional domains of the same
    identifier stops the constructor, a request with distinct ones does
    not. *)
Lemma constructor_returns_examples :
  completes "Site" collidingRequest = false
  /\ completes "Site" shopRequest = true.
Proof.
  split; vm_compute; reflexivity.
Qed.

(** * Properties of the earlier constructor *)

(** In the model the earlier constructor meets no repeated id. *)
Lemma earlier_constructor_run (name : string) (props : Part000.X8WebSiteProps) :
  exists sc,
    Part000.X8Website name props [] = (sc, Some tt)
    /\ lookupChild "WebsiteBucket" sc
       = Some (WaBucket (Part000.siteDomain props)
                 (List.app (orDefault (Part000.waBucketPolicyActions props) [])
                    ["s3:GetObject"]))
    /\ lookupChild
         (domainNameToPascalCase (Part000.waDomainName props) ++ "Cert") sc
       = Some (DnsValidatedCertificate (Part000.siteDomain props)
                 (domainNameToPascalCase (Part000.waDomainName props) ++ "Zone")
                 [])
    /\ lookupChild
         (domainNameToPascalCase (Part000.waDomainName props) ++ "Distribution")
         sc
       = Some (Distribution
                 (domainNameToPascalCase (Part000.waDomainName props) ++ "Cert")
                 (orDefault (Part000.waEnableCloudFrontLogging props) false)
                 (orDefault (Part000.waDefaultRootObject props) "index.html")
                 [Part000.siteDomain props]
                 (orDefault (Part000.waErrorResponsePagePath props)
                    "/error.html"))
    /\ lookupChild
         (domainNameToPascalCase (Part000.waDomainName props) ++ "AliasRecord")
         sc
       = Some (ARecord (Part000.siteDomain props)
                 (CloudFrontTarget
                    (domainNameToPascalCase (Part000.waDomainName props)
                     ++ "Distribution")))
    /\ literalOutputs sc = ["https://" ++ Part000.siteDomain props].
Proof.
  unfold Part000.X8Website.
  set (id := domainNameToPascalCase (Part000.waDomainName props)).
  add_child.
  destruct (Part000.waOriginAccessIdentity props) as [oai|].
  - erewrite bind_step by reflexivity.
    do 8 add_child.
    rewrite addChild_fresh
      by (unfold hasChild; cbn [existsb fst List.app]; ids_compare;
          reflexivity).
    eexists. split; [reflexivity|].
    cbn [List.app lookupChild literalOutputs].
    repeat split; ids_compare; reflexivity.
  - do 9 add_child.
    rewrite addChild_fresh
      by (unfold hasChild; cbn [existsb fst List.app]; ids_compare;
          reflexivity).
    eexists. split; [reflexivity|].
    cbn [List.app lookupChild literalOutputs].
    repeat split; ids_compare; reflexivity.
Qed.

(** X9: when the earlier constructor returns, its bucket, its certificate,
    which has no subject alternative name, and its record are named after
    the one site domain, which is also the only domain of the distribution,
    and its one output with a computed value is the URL of that domain. *)
Theorem earlier_constructor_constructs
    (name : string) (props : Part000.X8WebSiteProps) :
  Part000.completes name props = true ->
  (exists policyActions,
      lookupChild "WebsiteBucket" (Part000.built name props)
      = Some (WaBucket (Part000.siteDomain props) policyActions))
  /\ lookupChild
       (domainNameToPascalCase (Part000.waDomainName props) ++ "Cert")
       (Part000.built name props)
     = Some (DnsValidatedCertificate (Part000.siteDomain props)
               (domainNameToPascalCase (Part000.waDomainName props) ++ "Zone")
               [])
  /\ lookupChild
       (domainNameToPascalCase (Part000.waDomainName props) ++ "Distribution")
       (Part000.built name props)
     = Some (Distribution
               (domainNameToPascalCase (Part000.waDomainName props) ++ "Cert")
               (orDefault (Part000.waEnableCloudFrontLogging props) false)
               (orDefault (Part000.waDefaultRootObject props) "index.html")
               [Part000.siteDomain props]
               (orDefault (Part000.waErrorResponsePagePath props)
                  "/error.html"))
  /\ lookupChild
       (domainNameToPascalCase (Part000.waDomainName props) ++ "AliasRecord")
       (Part000.built name props)
     = Some (ARecord (Part000.siteDomain props)
               (CloudFrontTarget
                  (domainNameToPascalCase (Part000.waDomainName props)
                   ++ "Distribution")))
  /\ literalOutputs (Part000.built name props)
     = ["https://" ++ Part000.siteDomain props].
Proof.
  intros _. destruct (earlier_constructor_run name props) as (sc & E & B & H).
  unfold Part000.built. rewrite E. cbn [fst].
  split; [eexists; exact B | exact H].
Qed.

Lemma earlier_constructor_constructs_witness :
  (exists policyActions,
      lookupChild "WebsiteBucket" (Part000.built "Site" earlierShopRequest)
      = Some (WaBucket (Part000.siteDomain earlierShopRequest) policyActions))
  /\ lookupChild
       (domainNameToPascalCase (Part000.waDomainName earlierShopRequest)
        ++ "Cert")
       (Part000.built "Site" earlierShopRequest)
     = Some (DnsValidatedCertificate (Part000.siteDomain earlierShopRequest)
               (domainNameToPascalCase
                  (Part000.waDomainName earlierShopRequest) ++ "Zone")
               [])
  /\ lookupChild
       (domainNameToPascalCase (Part000.waDomainName earlierShopRequest)
        ++ "Distribution")
       (Part000.built "Site" earlierShopRequest)
     = Some (Distribution
               (domainNameToPascalCase
                  (Part000.waDomainName earlierShopRequest) ++ "Cert")
               (orDefault
                  (Part000.waEnableCloudFrontLogging earlierShopRequest) false)
               (orDefault (Part000.waDefaultRootObject earlierShopRequest)
                  "index.html")
               [Part000.siteDomain earlierShopRequest]
               (orDefault (Part000.waErrorResponsePagePath earlierShopRequest)
                  "/error.html"))
  /\ lookupChild
       (domainNameToPascalCase (Part000.waDomainName earlierShopRequest)
        ++ "AliasRecord")
       (Part000.built "Site" earlierShopRequest)
     = Some (ARecord (Part000.siteDomain earlierShopRequest)
               (CloudFrontTarget
                  (domainNameToPascalCase
                     (Part000.waDomainName earlierShopRequest)
                   ++ "Distribution")))
  /\ literalOutputs (Part000.built "Site" earlierShopRequest)
     = ["https://" ++ Part000.siteDomain earlierShopRequest].
Proof.
  apply (earlier_constructor_constructs "Site" earlierShopRequest).
  vm_compute. reflexivity.
Defined.

(** X10: the site domain of the two versions, for the same domain name and
    sub-domain.  Without sub-domain, or with ["www"], they agree; with
    another sub-domain that is not empty, the later version puts ["www."]
    in front of what the earlier one gives; the empty sub-domain is kept by
    the earlier version, which gives a name that starts with a dot, and is
    dropped by the later one. *)
Theorem site_domain_of_both_versions
    (props : X8WebSiteProps) (earlier : Part000.X8WebSiteProps) :
  waDomainName props = Part000.waDomainName earlier ->
  waSubDomain props = Part000.waSiteSubDomain earlier ->
  (waSubDomain props = None \/ waSubDomain props = Some "www" ->
   getSiteDomain props = Part000.siteDomain earlier)
  /\ (forall sub,
        waSubDomain props = Some sub -> sub <> "" -> sub <> "www" ->
        getSiteDomain props = "www." ++ Part000.siteDomain earlier)
  /\ (waSubDomain props = Some "" ->
      Part000.siteDomain earlier = "." ++ waDomainName props
      /\ getSiteDomain props = "www" ++ Part000.siteDomain earlier).
Proof.
  intros D S. unfold Part000.siteDomain. rewrite <- D, <- S.
  split; [|split].
  - intros H. rewrite getSiteDomain_default by tauto.
    destruct H as [->| ->]; reflexivity.
  - intros sub E N1 N2.
    rewrite (getSiteDomain_custom props sub E N1 N2), E. reflexivity.
  - intros E. rewrite getSiteDomain_default by tauto.
    rewrite E. split; reflexivity.
Qed.

Lemma site_domain_of_both_versions_witness :
  (waSubDomain shopRequest = None \/ waSubDomain shopRequest = Some "www" ->
   getSiteDomain shopRequest = Part000.siteDomain earlierShopRequest)
  /\ (forall sub,
        waSubDomain shopRequest = Some sub -> sub <> "" -> sub <> "www" ->
        getSiteDomain shopRequest
        = "www." ++ Part000.siteDomain earlierShopRequest)
  /\ (waSubDomain shopRequest = Some "" ->
      Part000.siteDomain earlierShopRequest = "." ++ waDomainName shopRequest
      /\ getSiteDomain shopRequest
         = "www" ++ Part000.siteDomain earlierShopRequest).
Proof.
  apply (site_domain_of_both_versions shopRequest earlierShopRequest);
    reflexivity.
Defined.

(** * The ids of the constructs *)

Lemma hasChild_childIds (id : string) (sc : Scope) :
  hasChild id sc = false <-> ~ In id (childIds sc).
Proof.
  unfold hasChild, childIds. induction sc as [|[i r] sc IH]; simpl.
  - tauto.
  - destruct (String.eqb_spec i id); simpl; [|tauto].
    split; [discriminate | tauto].
Qed.

Lemma ret_keepsDistinct {A : Type} (a : A) : keepsDistinct (ret a).
Proof.
  intros sc H. exact H.
Qed.

Lemma addChild_keepsDistinct (id : string) (r : Resource) :
  keepsDistinct (addChild id r).
Proof.
  intros sc H. unfold addChild.
  destruct (hasChild id sc) eqn:F; [exact H|].
  apply hasChild_childIds in F. unfold childIds in *. cbn [fst].
  rewrite List.map_app. apply NoDup_app; [assumption | |].
  - repeat constructor. intros [].
  - intros a I [<-|[]]. contradiction.
Qed.

Lemma bind_keepsDistinct {A B : Type} (m : Build A) (k : A -> Build B) :
  keepsDistinct m -> (forall a, keepsDistinct (k a)) ->
  keepsDistinct (bind m k).
Proof.
  intros Hm Hk sc H. unfold bind. specialize (Hm sc H).
  destruct (m sc) as [sc1 [a|]]; [apply Hk|]; exact Hm.
Qed.

Lemma forEach_keepsDistinct {A : Type} (f : A -> Build unit) (l : list A) :
  (forall x, keepsDistinct (f x)) -> keepsDistinct (forEach f l).
Proof.
  intros Hf. induction l as [|x l IH]; simpl.
  - apply ret_keepsDistinct.
  - apply bind_keepsDistinct; auto.
Qed.

Create HintDb keeps.
#[local] Hint Resolve ret_keepsDistinct addChild_keepsDistinct
  bind_keepsDistinct forEach_keepsDistinct : keeps.

Lemma X8Website_keepsDistinct (name : string) (props : X8WebSiteProps) :
  keepsDistinct (X8Website name props).
Proof.
  unfold X8Website.
  destruct (waOriginAccessIdentity props); auto 30 with keeps.
Qed.

Lemma certificateChildren_ids (cf s : string) (l : list string) :
  In s (map domainNameToPascalCase l) ->
  In (s ++ "WwwAliasRecord")
    (childIds (flat_map (certificateChildren cf) l)).
Proof.
  unfold childIds. induction l as [|x l IH]; [intros []|].
  intros [<-|I]; cbn [flat_map certificateChildren List.app map fst].
  - now left.
  - right. right. now apply IH.
Qed.

Lemma certificateChildren_distinct (cf : string) (l : list string) :
  NoDup (childIds (flat_map (certificateChildren cf) l)) ->
  NoDup (map domainNameToPascalCase l).
Proof.
  induction l as [|x l IH]; [constructor|].
  unfold childIds in *.
  cbn [flat_map certificateChildren List.app map fst].
  intros H. inversion H as [|? ? N1 H1]; subst.
  inversion H1 as [|? ? N2 H2]; subst.
  constructor; [|now apply IH].
  intros I. apply N1. right. now apply (certificateChildren_ids cf).
Qed.

(** X11: the ids that the constructor gives to its constructs are pairwise
    distinct exactly when the certificate domains have pairwise distinct
    identifiers: the ids that the constructor writes by itself never repeat
    one another nor those made from a certificate domain.  Without
    additional domains there is one certificate domain, and no id
    repeats. *)
Theorem construct_ids_distinct (name : string) (props : X8WebSiteProps) :
  (NoDup (childIds (allChildren name props))
   <-> NoDup (map domainNameToPascalCase (getCertificateDomains props)))
  /\ (additionalDomains props = [] ->
      NoDup (childIds (allChildren name props))).
Proof.
  assert (D : NoDup (map domainNameToPascalCase (getCertificateDomains props))
              -> NoDup (childIds (allChildren name props))).
  { intros N.
    pose proof (X8Website_keepsDistinct name props [] (NoDup_nil _)) as K.
    now rewrite X8Website_allChildren in K. }
  split; [split; [|exact D]|].
  - unfold allChildren, childIds. rewrite !List.map_app. intros H.
    apply NoDup_app_remove_l, NoDup_app_remove_r in H.
    now apply certificateChildren_distinct in H.
  - intros E. apply D.
    destruct (getCertificateDomains_tail props) as [primary ->].
    rewrite E. simpl. constructor; [intros [] | constructor].
Qed.

(** * A domain that is repeated *)

(** X12: a domain that is twice among the certificate domains, because the
    caller lists it twice or lists the first certificate domain again,
    makes the constructor throw. *)
Theorem constructor_throws_on_repeated_domain
    (name : string) (props : X8WebSiteProps) (domain : string) :
  1 < List.count_occ string_dec (getCertificateDomains props) domain ->
  completes name props = false.
Proof.
  intros H. destruct (completes name props) eqn:C; [|reflexivity].
  apply completes_NoDup in C.
  rewrite (NoDup_count_occ string_dec) in C. specialize (C domain). lia.
Qed.

Lemma constructor_throws_on_repeated_domain_witness :
  completes "Site" (request "example.com" None (Some ["example.com"]))
  = false.
Proof.
  apply (constructor_throws_on_repeated_domain "Site"
           (request "example.com" None (Some ["example.com"]))
           "example.com").
  vm_compute. lia.
Defined.
